(** * aurelia-fetch-client: a shallow embedding of [src/dist/aurelia-fetch-client.js]

    The file follows the source top to bottom: the JavaScript values the
    client handles (strings, header lists, requests, responses, promises),
    the regular expression [absoluteUrlRegexp], the configuration class, the
    client with its [configure] and [fetch] methods and the module-level
    helpers.  Definitions come first, the theorems about them afterwards. *)

From Stdlib Require Import List String Ascii ZArith NArith Bool Lia Permutation Sorted.
From Stdlib Require Import DecimalString.
Import ListNotations.

Local Open Scope string_scope.
Local Open Scope list_scope.

(* ===================================================================== *)
(** ** Regular expressions

    [absoluteUrlRegexp] is a regular-expression literal; the engine below
    gives the fragment it is written in (character classes, sequence,
    optional group, star, the [i] flag) a denotation [Matches] and an
    executable matcher [test] by derivatives. *)
(* ===================================================================== *)

Module RegExp.

Inductive t : Type :=
| Void                          (* matches nothing *)
| Eps                           (* matches the empty word *)
| Class (p : ascii -> bool)     (* one character of a class *)
| Seq (r1 r2 : t)
| Alt (r1 r2 : t)
| Star (r : t).

(** [(r)?] *)
Definition Opt (r : t) : t := Alt r Eps.

(** Character classes. *)
Definition chr (c : ascii) : ascii -> bool := fun x => Ascii.eqb x c.

Definition range (lo hi : ascii) : ascii -> bool :=
  fun x => (N_of_ascii lo <=? N_of_ascii x)%N && (N_of_ascii x <=? N_of_ascii hi)%N.

Definition union (p q : ascii -> bool) : ascii -> bool := fun x => p x || q x.

Definition toUpperCase (c : ascii) : ascii :=
  if range "a" "z" c then ascii_of_N (N_of_ascii c - 32) else c.

Definition toLowerCase (c : ascii) : ascii :=
  if range "A" "Z" c then ascii_of_N (N_of_ascii c + 32) else c.

(** The [i] flag: a character is in the class when some member of the
    class has the same canonical (upper-case) form.  For a code unit below
    128 the only candidates are the character and its two case variants;
    code units from 128 on are their own canonical form. *)
Definition ignoreCase (p : ascii -> bool) : ascii -> bool :=
  fun x => p x || p (toLowerCase x) || p (toUpperCase x).

Inductive Matches : t -> list ascii -> Prop :=
| MEps : Matches Eps []
| MClass p c : p c = true -> Matches (Class p) [c]
| MSeq r1 r2 w1 w2 : Matches r1 w1 -> Matches r2 w2 -> Matches (Seq r1 r2) (w1 ++ w2)
| MAltL r1 r2 w : Matches r1 w -> Matches (Alt r1 r2) w
| MAltR r1 r2 w : Matches r2 w -> Matches (Alt r1 r2) w
| MStarNil r : Matches (Star r) []
| MStarApp r w1 w2 : Matches r w1 -> Matches (Star r) w2 -> Matches (Star r) (w1 ++ w2).

Fixpoint nullable (r : t) : bool :=
  match r with
  | Void => false
  | Eps => true
  | Class _ => false
  | Seq r1 r2 => nullable r1 && nullable r2
  | Alt r1 r2 => nullable r1 || nullable r2
  | Star _ => true
  end.

Fixpoint deriv (c : ascii) (r : t) : t :=
  match r with
  | Void => Void
  | Eps => Void
  | Class p => if p c then Eps else Void
  | Seq r1 r2 =>
      if nullable r1 then Alt (Seq (deriv c r1) r2) (deriv c r2)
      else Seq (deriv c r1) r2
  | Alt r1 r2 => Alt (deriv c r1) (deriv c r2)
  | Star r1 => Seq (deriv c r1) (Star r1)
  end.

(** A pattern anchored with [^] and without [$]: the match starts at
    index 0 and may end anywhere. *)
Fixpoint matchesPrefix (r : t) (w : list ascii) : bool :=
  nullable r ||
  match w with
  | [] => false
  | c :: w' => matchesPrefix (deriv c r) w'
  end.

(** [regexp.test(str)] for such a pattern (no [g] flag, so no state). *)
Definition test (r : t) (str : string) : bool :=
  matchesPrefix r (list_ascii_of_string str).

(** What [test] decides: some prefix of the string is in the language. *)
Definition HasMatchAtStart (r : t) (str : string) : Prop :=
  exists w rest, list_ascii_of_string str = w ++ rest /\ Matches r w.

End RegExp.

(** [const absoluteUrlRegexp = /^([a-z][a-z0-9+\-.]*:)?\/\//i;] *)
Definition absoluteUrlRegexp : RegExp.t :=
  let letter := RegExp.ignoreCase (RegExp.range "a" "z") in
  let schemeChar :=
    RegExp.ignoreCase
      (RegExp.union (RegExp.range "a" "z")
         (RegExp.union (RegExp.range "0" "9")
            (RegExp.union (RegExp.chr "+")
               (RegExp.union (RegExp.chr "-") (RegExp.chr "."))))) in
  RegExp.Seq
    (RegExp.Opt
       (RegExp.Seq (RegExp.Class letter)
          (RegExp.Seq (RegExp.Star (RegExp.Class schemeChar))
             (RegExp.Class (RegExp.ignoreCase (RegExp.chr ":"))))))
    (RegExp.Seq (RegExp.Class (RegExp.ignoreCase (RegExp.chr "/")))
       (RegExp.Class (RegExp.ignoreCase (RegExp.chr "/")))).

(** JavaScript truthiness of a string: only the empty string is falsy. *)
Definition truthyString (s : string) : bool := negb (s =? "").

(** [baseUrl || ''], where [None] stands for [undefined]/[null]. *)
Definition orEmpty (baseUrl : option string) : string :=
  match baseUrl with
  | Some b => if truthyString b then b else ""
  | None => ""
  end.

(** [function getRequestUrl(baseUrl, url)] *)
Definition getRequestUrl (baseUrl : option string) (url : string) : string :=
  if RegExp.test absoluteUrlRegexp url then url
  else orEmpty baseUrl ++ url.

(* ===================================================================== *)
(** ** The platform values the client handles

    [Headers], [Request] and [Response] belong to the Fetch API the client is
    layered on, not to this repository.  They are modelled as far as the
    source reads and writes them: a header list with case-insensitive names,
    the request built from a URL and an init object, the [ok] flag of a
    response.  Header names and values are taken to be valid (the platform
    throws on others). *)
(* ===================================================================== *)

Fixpoint toLowerCase (s : string) : string :=
  match s with
  | EmptyString => EmptyString
  | String c s' => String (RegExp.toLowerCase c) (toLowerCase s')
  end.

Fixpoint toUpperCase (s : string) : string :=
  match s with
  | EmptyString => EmptyString
  | String c s' => String (RegExp.toUpperCase c) (toUpperCase s')
  end.

Module Headers.

(** The header list, names stored lower-cased, in insertion order. *)
Definition t : Type := list (string * string).

Definition named (name : string) (e : string * string) : bool :=
  fst e =? toLowerCase name.

Definition has (h : t) (name : string) : bool := existsb (named name) h.

(** [get] joins the values of all headers of that name; [None] is [null]. *)
Definition get (h : t) (name : string) : option string :=
  match map snd (filter (named name) h) with
  | [] => None
  | v :: vs => Some (fold_left (fun acc x => (acc ++ ", " ++ x)%string) vs v)
  end.

Definition append (h : t) (name value : string) : t :=
  h ++ [(toLowerCase name, value)].

(** The first header of that name takes the value, the others go. *)
Fixpoint replace (name value : string) (h : t) : t :=
  match h with
  | [] => []
  | e :: rest =>
      if named name e
      then (fst e, value) :: filter (fun e' => negb (named name e')) rest
      else e :: replace name value rest
  end.

Definition set (h : t) (name value : string) : t :=
  if has h name then replace name value h else append h name value.

End Headers.

(** A value of a plain headers object: a string, or a function the client
    calls to obtain one ([source] is the text [String(f)] yields, [result]
    what [f()] returns).  The functions are those that return a string; one
    that throws would end [buildRequest] with its error, which is why the
    statements about a built request take the build to have returned. *)
Inductive HeaderValue : Type :=
| HString (s : string)
| HFunction (source result : string).

(** [String(v)], as [Headers] applies it to the values it is given. *)
Definition stringOfHeaderValue (v : HeaderValue) : string :=
  match v with
  | HString s => s
  | HFunction source _ => source
  end.

(** [RequestInit.headers: Headers|Object]: an object literal (own enumerable
    properties in enumeration order) or a [Headers] instance. *)
Inductive HeadersInit : Type :=
| PlainObject (entries : list (string * HeaderValue))
| HeadersInstance (h : Headers.t).

(** [new Headers(init)]; [None] is [undefined]. *)
Definition newHeaders (init : option HeadersInit) : Headers.t :=
  match init with
  | None => []
  | Some (HeadersInstance h) => h
  | Some (PlainObject entries) =>
      fold_left (fun h e => Headers.append h (fst e) (stringOfHeaderValue (snd e)))
        entries []
  end.

(** [Headers.prototype.isPrototypeOf(x)] *)
Definition isHeaders (x : option HeadersInit) : bool :=
  match x with
  | Some (HeadersInstance _) => true
  | _ => false
  end.

(** [RequestInit.body]: a string, a [Blob] with its [type], or one of the
    other body kinds with the content type the platform extracts from it. *)
Inductive Body : Type :=
| BodyString (s : string)
| BodyBlob (type : string)
| BodyOther (contentType : option string).

Definition truthyBody (b : option Body) : bool :=
  match b with
  | None => false
  | Some (BodyString s) => truthyString s
  | Some _ => true
  end.

(** The content type the platform derives from a body. *)
Definition bodyContentType (b : Body) : option string :=
  match b with
  | BodyString _ => Some "text/plain;charset=UTF-8"
  | BodyBlob type => if truthyString type then Some type else None
  | BodyOther ct => ct
  end.

Module RequestInit.

(** [interface RequestInit]; [None] is a property that is not set. *)
Record t : Type := Build {
  method : option string;
  headers : option HeadersInit;
  body : option Body;
  mode : option string;
  credentials : option string;
  cache : option string;
  redirect : option string;
  referrer : option string;
  integrity : option string
}.

(** [{}] *)
Definition empty : t := Build None None None None None None None None None.

Definition orElse {A} (later earlier : option A) : option A :=
  match later with
  | Some _ => later
  | None => earlier
  end.

(** [Object.assign(target, source)]: the properties [source] has win. *)
Definition assign (target source : t) : t :=
  Build (orElse (method source) (method target))
        (orElse (headers source) (headers target))
        (orElse (body source) (body target))
        (orElse (mode source) (mode target))
        (orElse (credentials source) (credentials target))
        (orElse (cache source) (cache target))
        (orElse (redirect source) (redirect target))
        (orElse (referrer source) (referrer target))
        (orElse (integrity source) (integrity target)).

(** [Object.assign(target, source)] where [source] may be [null]. *)
Definition assignOpt (target : t) (source : option t) : t :=
  match source with
  | Some o => assign target o
  | None => target
  end.

Definition withHeaders (h : HeadersInit) : t :=
  Build None (Some h) None None None None None None None.

Definition withBody (b : Body) : t :=
  Build None None (Some b) None None None None None None.

Definition withCredentials (c : string) : t :=
  Build None None None None (Some c) None None None None.

End RequestInit.

Module Request.

Record t : Type := Build {
  url : string;
  method : string;
  headers : Headers.t;
  body : option Body;
  init : RequestInit.t     (* the remaining options, as given *)
}.

Definition setHeaders (r : t) (h : Headers.t) : t :=
  Build (url r) (method r) h (body r) (init r).

End Request.

Module Response.

Record t : Type := Build {
  ok : bool;
  status : Z;
  body : string
}.

End Response.

(** The JavaScript values that travel through the promise chains. *)
Inductive Value : Type :=
| VUndefined
| VNull
| VBoolean (b : bool)
| VNumber (n : Z)
| VString (s : string)
| VError (name message : string)
| VRequest (r : Request.t)
| VResponse (r : Response.t).

(** [Request.prototype.isPrototypeOf(v)], [Response.prototype.isPrototypeOf(v)] *)
Definition isRequest (v : Value) : bool :=
  match v with VRequest _ => true | _ => false end.

Definition isResponse (v : Value) : bool :=
  match v with VResponse _ => true | _ => false end.

Definition decimalOfZ (n : Z) : string :=
  match n with
  | Z0 => "0"
  | Zpos p => NilEmpty.string_of_uint (Pos.to_uint p)
  | Zneg p => "-" ++ NilEmpty.string_of_uint (Pos.to_uint p)
  end.

(** The string a template literal puts for [${v}]. *)
Definition toString (v : Value) : string :=
  match v with
  | VUndefined => "undefined"
  | VNull => "null"
  | VBoolean b => if b then "true" else "false"
  | VNumber n => decimalOfZ n
  | VString s => s
  | VError name message =>
      if message =? "" then name
      else if name =? "" then message
      else name ++ ": " ++ message
  | VRequest _ => "[object Request]"
  | VResponse _ => "[object Response]"
  end.

(** How a call ends: with a value or with a thrown one. *)
Inductive Completion (A : Type) : Type :=
| Normal (a : A)
| Throw (e : Value).
Arguments Normal {A} a.
Arguments Throw {A} e.

(** The state a promise ends in.  [Pending] is a promise that never
    settles. *)
Inductive Promise (A : Type) : Type :=
| Fulfilled (a : A)
| Rejected (reason : Value)
| Pending.
Arguments Fulfilled {A} a.
Arguments Rejected {A} reason.
Arguments Pending {A}.

Definition settled {A} (p : Promise A) : bool :=
  match p with Pending => false | _ => true end.

(** [Promise.resolve().then(() => f())] *)
Definition promiseOf {A} (c : Completion A) : Promise A :=
  match c with
  | Normal a => Fulfilled a
  | Throw e => Rejected e
  end.

Definition promiseMap {A B} (f : A -> B) (p : Promise A) : Promise B :=
  match p with
  | Fulfilled a => Fulfilled (f a)
  | Rejected e => Rejected e
  | Pending => Pending
  end.

Definition methodName (m : option string) : string :=
  match m with
  | None => "GET"
  | Some m =>
      let u := toUpperCase m in
      if existsb (String.eqb u) ["DELETE"; "GET"; "HEAD"; "OPTIONS"; "POST"; "PUT"]
      then u else m
  end.

(** [new Request(url, init)].  The platform refuses a body on GET and HEAD
    (the note at [RequestInit.body] in the source), and gives a request
    whose init names no content type the one its body carries.  This is the
    one refusal the source speaks of; a platform has others (a method it
    does not support, a URL it cannot parse) and words its errors its own
    way, so the general statements about a built request take the build to
    have returned, and none says that no other refusal exists. *)
Definition newRequest (url : string) (init : RequestInit.t) : Completion Request.t :=
  let m := methodName (RequestInit.method init) in
  let h := newHeaders (RequestInit.headers init) in
  match RequestInit.body init with
  | Some b =>
      if (m =? "GET") || (m =? "HEAD")
      then Throw (VError "TypeError" "Request with GET/HEAD method cannot have body")
      else
        let h' := match bodyContentType b with
                  | Some ct => if Headers.has h "Content-Type" then h
                               else Headers.append h "Content-Type" ct
                  | None => h
                  end in
        Normal (Request.Build url m h' (Some b) init)
  | None => Normal (Request.Build url m h None init)
  end.

(* ===================================================================== *)
(** ** Interceptors *)
(* ===================================================================== *)

(** A handler is called with the value of the chain and the extra
    [...interceptorArgs]; what it returns or throws, or the promise it
    returns, decides the state of the next promise of the chain.  A handler
    is taken by that outcome alone: it does not itself write to the client. *)
Definition Handler : Type := Value -> list Value -> Promise Value.

Module Interceptor.

(** [interface Interceptor]: four optional handlers. *)
Record t : Type := Build {
  request : option Handler;
  requestError : option Handler;
  response : option Handler;
  responseError : option Handler
}.

End Interceptor.

(** The property names [applyInterceptors] is called with. *)
Inductive HandlerName : Type :=
| request_
| requestError_
| response_
| responseError_.

(** [interceptor[name]] *)
Definition getHandler (interceptor : Interceptor.t) (name : HandlerName) : option Handler :=
  match name with
  | request_ => Interceptor.request interceptor
  | requestError_ => Interceptor.requestError interceptor
  | response_ => Interceptor.response interceptor
  | responseError_ => Interceptor.responseError interceptor
  end.

(** [function rejectOnError(response)].  Reading [.ok] off [undefined] or
    [null] throws; any other value that is not a response has no [ok]. *)
Definition rejectOnError : Handler :=
  fun response _ =>
    match response with
    | VResponse r => if negb (Response.ok r) then Rejected response else Fulfilled response
    | VUndefined | VNull =>
        Rejected (VError "TypeError" "Cannot read properties of undefined (reading 'ok')")
    | _ => Rejected response
    end.

(** [function identity(x)] and [function thrower(x)], as promise handlers. *)
Definition identity (x : Value) : Promise Value := Fulfilled x.
Definition thrower (x : Value) : Promise Value := Rejected x.

(* ===================================================================== *)
(** ** [class HttpClientConfiguration] *)
(* ===================================================================== *)

Module HttpClientConfiguration.

Record t : Type := Build {
  baseUrl : option string;
  defaults : RequestInit.t;
  interceptors : list Interceptor.t
}.

(** [new HttpClientConfiguration()] *)
Definition new : t := Build (Some "") RequestInit.empty [].

Definition withBaseUrl (this : t) (baseUrl : string) : t :=
  Build (Some baseUrl) (defaults this) (interceptors this).

Definition withDefaults (this : t) (defaults : RequestInit.t) : t :=
  Build (baseUrl this) defaults (interceptors this).

(** [this.interceptors.push(interceptor)] *)
Definition withInterceptor (this : t) (interceptor : Interceptor.t) : t :=
  Build (baseUrl this) (defaults this) (interceptors this ++ [interceptor]).

Definition rejectErrorResponses (this : t) : t :=
  withInterceptor this (Interceptor.Build None None (Some rejectOnError) None).

(** [Object.assign(this.defaults, standardConfig, this.defaults)].  The
    target is the object [this.defaults] itself: when it is read as the
    last source it already holds what [standardConfig] put into it. *)
Definition useStandardConfiguration (this : t) : t :=
  let standardConfig := RequestInit.withCredentials "same-origin" in
  let target := RequestInit.assign (defaults this) standardConfig in
  let target := RequestInit.assign target target in
  rejectErrorResponses (Build (baseUrl this) target (interceptors this)).

End HttpClientConfiguration.

(* ===================================================================== *)
(** ** Methods: state and exceptions

    A method of an object with state [S] maps the state before the call to
    its completion and the state after it. *)
(* ===================================================================== *)

Definition Method (S A : Type) : Type := S -> Completion A * S.

Definition ret {S A} (a : A) : Method S A := fun s => (Normal a, s).

Definition throw {S A} (e : Value) : Method S A := fun s => (Throw e, s).

Definition bind {S A B} (m : Method S A) (k : A -> Method S B) : Method S B :=
  fun s =>
    match m s with
    | (Normal a, s') => k a s'
    | (Throw e, s') => (Throw e, s')
    end.

Definition read {S A} (f : S -> A) : Method S A := fun s => (Normal (f s), s).

Definition modify {S} (f : S -> S) : Method S unit := fun s => (Normal tt, f s).

Declare Scope method_scope.
Delimit Scope method_scope with method.
Notation "x <- m ;; k" := (bind m (fun x => k))
  (at level 61, m at next level, right associativity) : method_scope.
Notation "m ;; k" := (bind m (fun _ => k))
  (at level 61, right associativity) : method_scope.

(* ===================================================================== *)
(** ** [class HttpClient] *)
(* ===================================================================== *)

(** What the callback given to [configure] does.  It is handed a
    configuration whose [interceptors] is the client's own array, so
    [arrayAfter] tells what that array holds once the callback is done
    ([withInterceptor] pushes onto it); [configAfter] is the configuration
    object it was handed, as it left it, and [returned] the configuration
    instance it returned, if it returned one. *)
Record CallbackResult : Type := {
  configAfter : HttpClientConfiguration.t;
  arrayAfter : list Interceptor.t;
  returned : option HttpClientConfiguration.t
}.

(** How a call of the callback ends: it returns, or it throws [e]; in both
    cases it may have pushed onto the array it was handed before. *)
Inductive CallbackOutcome : Type :=
| Returns (c : CallbackResult)
| Throws (e : Value) (arrayAfter : list Interceptor.t).

(** The argument of [configure]. *)
Inductive ConfigArg : Type :=
| ArgUndefined
| ArgNull
| ArgBoolean (b : bool)
| ArgNumber (n : Z)
| ArgString (s : string)
| ArgObject (o : RequestInit.t)
| ArgFunction (f : HttpClientConfiguration.t -> CallbackOutcome).

(** [typeof config] *)
Definition typeof (config : ConfigArg) : string :=
  match config with
  | ArgUndefined => "undefined"
  | ArgNull => "object"
  | ArgBoolean _ => "boolean"
  | ArgNumber _ => "number"
  | ArgString _ => "string"
  | ArgObject _ => "object"
  | ArgFunction _ => "function"
  end.

(** The argument read as the defaults it is stored as ([null] stays [null]). *)
Definition asDefaults (config : ConfigArg) : option RequestInit.t :=
  match config with
  | ArgObject o => Some o
  | _ => None
  end.

(** The argument called as a function. *)
Definition call (config : ConfigArg) (seed : HttpClientConfiguration.t) : CallbackOutcome :=
  match config with
  | ArgFunction f => f seed
  | _ => Returns {| configAfter := seed;
                    arrayAfter := HttpClientConfiguration.interceptors seed;
                    returned := None |}
  end.

(** [normalizedConfig]: either the literal [{ defaults: config }], which
    has no [baseUrl] and no [interceptors], or a configuration instance. *)
Record NormalizedConfig : Type := {
  n_baseUrl : option string;
  n_defaults : option RequestInit.t;
  n_interceptors : option (list Interceptor.t)
}.

Definition ofConfiguration (c : HttpClientConfiguration.t) : NormalizedConfig :=
  {| n_baseUrl := HttpClientConfiguration.baseUrl c;
     n_defaults := Some (HttpClientConfiguration.defaults c);
     n_interceptors := Some (HttpClientConfiguration.interceptors c) |}.

(** [defaults && Headers.prototype.isPrototypeOf(defaults.headers)] *)
Definition hasHeadersInstance (defaults : option RequestInit.t) : bool :=
  match defaults with
  | Some d => isHeaders (RequestInit.headers d)
  | None => false
  end.

(** What a request is made from: a [Request] or a URL string. *)
Inductive Input : Type :=
| InputRequest (r : Request.t)
| InputUrl (url : string).

(** What happens during a [fetch], in the order it happens: the record the
    statements about order and about calls that are never made refer to. *)
Inductive Event : Type :=
| EvTrackRequestStart
| EvBuildRequest
| EvHandler (index : nat) (name : HandlerName) (value : Value)
| EvTransport (r : Request.t)
| EvTrackRequestEnd.

Module HttpClient.

Record t : Type := Build {
  activeRequestCount : Z;
  isRequesting : bool;
  isConfigured : bool;
  baseUrl : option string;
  defaults : option RequestInit.t;
  interceptors : list Interceptor.t
}.

(** The fields' initial values. *)
Definition initial : t := Build 0 false false (Some "") None [].

(** [constructor()], given whether the environment defines [fetch]. *)
Definition new (fetchDefined : bool) : Completion t :=
  if fetchDefined then Normal initial
  else Throw (VError "Error"
    "HttpClient requires a Fetch API implementation, but the current environment doesn't support it. You may need to load a polyfill such as https://github.com/github/fetch.").

Definition setCount (this : t) (n : Z) (r : bool) : t :=
  Build n r (isConfigured this) (baseUrl this) (defaults this) (interceptors this).

Definition setInterceptors (this : t) (l : list Interceptor.t) : t :=
  Build (activeRequestCount this) (isRequesting this) (isConfigured this)
        (baseUrl this) (defaults this) l.

Definition setBaseUrl (this : t) (b : option string) : t :=
  Build (activeRequestCount this) (isRequesting this) (isConfigured this)
        b (defaults this) (interceptors this).

Definition setDefaults (this : t) (d : option RequestInit.t) : t :=
  Build (activeRequestCount this) (isRequesting this) (isConfigured this)
        (baseUrl this) d (interceptors this).

Definition setIsConfigured (this : t) (b : bool) : t :=
  Build (activeRequestCount this) (isRequesting this) b
        (baseUrl this) (defaults this) (interceptors this).

Local Open Scope method_scope.

(** The first statement of [configure]: the [if]/[else if]/[else] that
    fills [normalizedConfig]. *)
Definition normalizeConfig (config : ConfigArg) : Method t NormalizedConfig :=
  if typeof config =? "object" then
    ret {| n_baseUrl := None; n_defaults := asDefaults config;
           n_interceptors := None |}
  else if typeof config =? "function" then
    this <- read (fun this => this) ;;
    let seed :=
      HttpClientConfiguration.Build
        (baseUrl this)
        (RequestInit.assignOpt RequestInit.empty (defaults this))
        (interceptors this) in
    match call config seed with
    | Returns c =>
        modify (fun this => setInterceptors this (arrayAfter c)) ;;
        match returned c with
        | Some c' => ret (ofConfiguration c')
        | None => ret (ofConfiguration (configAfter c))
        end
    | Throws e array =>
        modify (fun this => setInterceptors this array) ;;
        throw e
    end
  else
    throw (VError "Error" "invalid config").

(** [configure(config)]; the method returns [this]. *)
Definition configure (config : ConfigArg) : Method t unit :=
  normalizedConfig <- normalizeConfig config ;;
  let defaults := n_defaults normalizedConfig in
  (if hasHeadersInstance defaults
   then throw (VError "Error" "Default headers must be a plain object.")
   else ret tt) ;;
  modify (fun this => setBaseUrl this (n_baseUrl normalizedConfig)) ;;
  modify (fun this => setDefaults this defaults) ;;
  modify (fun this =>
            setInterceptors this
              match n_interceptors normalizedConfig with
              | Some l => l
              | None => []
              end) ;;
  modify (fun this => setIsConfigured this true).

(** [this.isRequesting = !!(++this.activeRequestCount)] *)
Definition trackRequestStart : Method t unit :=
  modify (fun this =>
            let n := (activeRequestCount this + 1)%Z in
            setCount this n (negb (n =? 0)%Z)).

(** [this.isRequesting = !!(--this.activeRequestCount)] *)
Definition trackRequestEnd : Method t unit :=
  modify (fun this =>
            let n := (activeRequestCount this - 1)%Z in
            setCount this n (negb (n =? 0)%Z)).

End HttpClient.

(** [function parseHeaderValues(headers)]: a new object with the own
    properties of [headers], the functions among them called.  Neither
    [undefined] nor a [Headers] instance has an own enumerable property. *)
Definition parseHeaderValues (headers : option HeadersInit) : list (string * HeaderValue) :=
  match headers with
  | Some (PlainObject entries) =>
      map (fun e => (fst e,
                     match snd e with
                     | HFunction _ result => HString result
                     | HString s => HString s
                     end)) entries
  | _ => []
  end.

(** [function setDefaultHeaders(headers, defaultHeaders)] *)
Definition setDefaultHeaders (headers : Headers.t)
    (defaultHeaders : list (string * HeaderValue)) : Headers.t :=
  fold_left
    (fun headers e =>
       if negb (Headers.has headers (fst e))
       then Headers.set headers (fst e) (stringOfHeaderValue (snd e))
       else headers)
    defaultHeaders headers.

(** Truthiness of what [Headers.get] returns: [null] and [''] are falsy. *)
Definition truthyOption (v : option string) : bool :=
  match v with
  | Some s => truthyString s
  | None => false
  end.

(** [body && Blob.prototype.isPrototypeOf(body) && body.type] *)
Definition blobType (body : option Body) : option string :=
  match body with
  | Some (BodyBlob type) => if truthyString type then Some type else None
  | _ => None
  end.

(** [function buildRequest(input, init)], called with the client as [this]. *)
Definition buildRequest (this : HttpClient.t) (input : Input)
    (init : option RequestInit.t) : Completion Request.t :=
  let defaults := match HttpClient.defaults this with
                  | Some d => d
                  | None => RequestInit.empty
                  end in
  let parsedDefaultHeaders := parseHeaderValues (RequestInit.headers defaults) in
  let built :=
    match input with
    | InputRequest request =>
        Normal (request, None, Headers.get (Request.headers request) "Content-Type")
    | InputUrl url =>
        let init := match init with Some i => i | None => RequestInit.empty end in
        let body := RequestInit.body init in
        let bodyObj := if truthyBody body
                       then option_map RequestInit.withBody body else None in
        let requestInit :=
          RequestInit.assignOpt
            (RequestInit.assign
               (RequestInit.assign (RequestInit.assign RequestInit.empty defaults)
                  (RequestInit.withHeaders (PlainObject [])))
               init)
            bodyObj in
        let requestContentType :=
          Headers.get (newHeaders (RequestInit.headers requestInit)) "Content-Type" in
        match newRequest (getRequestUrl (HttpClient.baseUrl this) url) requestInit with
        | Normal request => Normal (request, body, requestContentType)
        | Throw e => Throw e
        end
    end in
  match built with
  | Throw e => Throw e
  | Normal (request, body, requestContentType) =>
      let headers := Request.headers request in
      let headers :=
        if negb (truthyOption requestContentType)
           && Headers.has (newHeaders (Some (PlainObject parsedDefaultHeaders))) "content-type"
        then Headers.set headers "Content-Type"
               (match Headers.get (newHeaders (Some (PlainObject parsedDefaultHeaders)))
                        "content-type" with
                | Some v => v
                | None => "null"
                end)
        else headers in
      let headers := setDefaultHeaders headers parsedDefaultHeaders in
      let headers :=
        match blobType body with
        | Some type => Headers.set headers "Content-Type" type
        | None => headers
        end in
      Normal (Request.setHeaders request headers)
  end.

(* ===================================================================== *)
(** ** Running a request

    A [fetch] runs on the client and leaves a trace of what it did. *)
(* ===================================================================== *)

Record Runtime : Type := {
  client : HttpClient.t;
  trace : list Event
}.

Definition onClient {A} (m : Method HttpClient.t A) : Method Runtime A :=
  fun rt =>
    let (c, this') := m (client rt) in
    (c, {| client := this'; trace := trace rt |}).

Definition log (e : Event) : Method Runtime unit :=
  modify (fun rt => {| client := client rt; trace := trace rt ++ [e] |}).

Section Fetch.

(** The global [fetch] of the environment. *)
Variable transport : Request.t -> Promise Value.

Local Open Scope method_scope.

(** One step of the [reduce] in [applyInterceptors]:
    [chain.then(successHandler && (...) || identity,
                errorHandler && (...) || thrower)]. *)
Definition chainThen (index : nat) (interceptor : Interceptor.t)
    (successName errorName : HandlerName) (interceptorArgs : list Value)
    (chain : Promise Value) : Method Runtime (Promise Value) :=
  let successHandler := getHandler interceptor successName in
  let errorHandler := getHandler interceptor errorName in
  match chain with
  | Fulfilled value =>
      match successHandler with
      | Some h => log (EvHandler index successName value) ;;
                  ret (h value interceptorArgs)
      | None => ret (identity value)
      end
  | Rejected reason =>
      match errorHandler with
      | Some h => log (EvHandler index errorName reason) ;;
                  ret (h reason interceptorArgs)
      | None => ret (thrower reason)
      end
  | Pending => ret Pending
  end.

(** [interceptors.reduce((chain, interceptor) => ..., chain)], the
    interceptors numbered from [index] on. *)
Fixpoint reduce (index : nat) (interceptors : list Interceptor.t)
    (successName errorName : HandlerName) (interceptorArgs : list Value)
    (chain : Promise Value) : Method Runtime (Promise Value) :=
  match interceptors with
  | [] => ret chain
  | interceptor :: rest =>
      chain' <- chainThen index interceptor successName errorName interceptorArgs chain ;;
      reduce (S index) rest successName errorName interceptorArgs chain'
  end.

(** [function applyInterceptors(input, interceptors, successName, errorName,
    ...interceptorArgs)]; [input] is a value or a promise, and
    [Promise.resolve(input)] the promise [input] stands for here. *)
Definition applyInterceptors (input : Promise Value) (interceptors : list Interceptor.t)
    (successName errorName : HandlerName) (interceptorArgs : list Value)
  : Method Runtime (Promise Value) :=
  reduce 0 interceptors successName errorName interceptorArgs input.

Definition processRequest (request : Promise Value) (interceptors : list Interceptor.t)
  : Method Runtime (Promise Value) :=
  applyInterceptors request interceptors request_ requestError_ [].

Definition processResponse (response : Promise Value) (interceptors : list Interceptor.t)
    (request : Request.t) : Method Runtime (Promise Value) :=
  applyInterceptors response interceptors response_ responseError_ [VRequest request].

(** The [result => { ... }] handler inside [fetch]; [request] is the
    promise the variable of that name holds when the handler runs. *)
Definition dispatch (request : Promise Request.t) (result : Value)
  : Method Runtime (Promise Value) :=
  interceptors <- read (fun rt => HttpClient.interceptors (client rt)) ;;
  if isResponse result then
    (* response = result; return request.then(_request => ...) *)
    match request with
    | Fulfilled _request => processResponse (Fulfilled result) interceptors _request
    | Rejected reason => ret (Rejected reason)
    | Pending => ret Pending
    end
  else
    match result with
    | VRequest r =>
        (* request = Promise.resolve(result); response = fetch(result) *)
        log (EvTransport r) ;;
        processResponse (transport r) interceptors r
    | _ =>
        ret (Rejected (VError "Error"
          ("An invalid result was returned by the interceptor chain. Expected a Request or Response instance, but got ["
           ++ toString result ++ "]")%string))
    end.

(** [promise.then(handle, handle); return promise] *)
Definition trackRequestEndWith (promise : Promise Value)
  : Method Runtime (Promise Value) :=
  (if settled promise
   then onClient HttpClient.trackRequestEnd ;; log EvTrackRequestEnd
   else ret tt) ;;
  ret promise.

(** The promise chain [fetch] builds between the two tracking calls. *)
Definition pipeline (input : Input) (init : option RequestInit.t)
  : Method Runtime (Promise Value) :=
  this <- read client ;;
  log EvBuildRequest ;;
  let request := promiseOf (buildRequest this input init) in
  result <- processRequest (promiseMap VRequest request) (HttpClient.interceptors this) ;;
  match result with
  | Fulfilled result => dispatch request result
  | Rejected reason => ret (Rejected reason)
  | Pending => ret Pending
  end.

(** [fetch(input, init)] *)
Definition fetch (input : Input) (init : option RequestInit.t)
  : Method Runtime (Promise Value) :=
  onClient HttpClient.trackRequestStart ;;
  log EvTrackRequestStart ;;
  promise <- pipeline input init ;;
  trackRequestEndWith promise.

End Fetch.

(** Several calls in flight on one client: each contributes the
    synchronous start of its [fetch] and, when its promise settles, the
    [handle] registered by [trackRequestEndWith]. *)
Inductive Tick : Type :=
| Started (call : nat)
| Settled (call : nat).

Definition tick (this : HttpClient.t) (t : Tick) : HttpClient.t :=
  match t with
  | Started _ => snd (HttpClient.trackRequestStart this)
  | Settled _ => snd (HttpClient.trackRequestEnd this)
  end.

Definition runTicks (schedule : list Tick) (this : HttpClient.t) : HttpClient.t :=
  fold_left tick schedule this.

(* ===================================================================== *)
(** ** [function json(body)]

    [JSON.stringify] is the platform's; [json] is stated over the values it
    turns into text, with [emptyObject] for [{}].  [None] is [undefined]. *)
(* ===================================================================== *)

Module Blob.

(** [new Blob([text], { type })] *)
Record t : Type := Build {
  text : string;
  type : string
}.

End Blob.

(** A blob given as the body of a request. *)
Definition bodyOfBlob (b : Blob.t) : Body := BodyBlob (Blob.type b).

Section Json.

Variable J : Type.
Variable stringify : J -> string.
Variable emptyObject : J.

(** [new Blob([JSON.stringify((body !== undefined ? body : {}))],
    { type: 'application/json' })] *)
Definition json (body : option J) : Blob.t :=
  Blob.Build
    (stringify (match body with Some b => b | None => emptyObject end))
    "application/json".

End Json.

(* ===================================================================== *)
(** ** Callbacks that chain the configuration's methods

    [config => config.withBaseUrl(...).withInterceptor(...)...]: every method
    of [HttpClientConfiguration] returns [this] and leaves the [interceptors]
    array the object it was, so the array the callback leaves behind is the
    one of the configuration it returns. *)
(* ===================================================================== *)

Inductive ConfigStep : Type :=
| WithBaseUrl (baseUrl : string)
| WithDefaults (defaults : RequestInit.t)
| WithInterceptor (interceptor : Interceptor.t)
| UseStandardConfiguration
| RejectErrorResponses.

Definition runStep (config : HttpClientConfiguration.t) (step : ConfigStep)
  : HttpClientConfiguration.t :=
  match step with
  | WithBaseUrl baseUrl => HttpClientConfiguration.withBaseUrl config baseUrl
  | WithDefaults defaults => HttpClientConfiguration.withDefaults config defaults
  | WithInterceptor interceptor => HttpClientConfiguration.withInterceptor config interceptor
  | UseStandardConfiguration => HttpClientConfiguration.useStandardConfiguration config
  | RejectErrorResponses => HttpClientConfiguration.rejectErrorResponses config
  end.

Definition runSteps (steps : list ConfigStep) (config : HttpClientConfiguration.t)
  : HttpClientConfiguration.t :=
  fold_left runStep steps config.

Definition chained (steps : list ConfigStep) : ConfigArg :=
  ArgFunction
    (fun seed =>
       let config := runSteps steps seed in
       Returns {| configAfter := config;
                  arrayAfter := HttpClientConfiguration.interceptors config;
                  returned := Some config |}).

(** The configuration [configure] hands to a callback. *)
Definition seedOf (this : HttpClient.t) : HttpClientConfiguration.t :=
  HttpClientConfiguration.Build
    (HttpClient.baseUrl this)
    (RequestInit.assignOpt RequestInit.empty (HttpClient.defaults this))
    (HttpClient.interceptors this).

(** The interceptors the steps push, in the order they push them. *)
Definition pushed (steps : list ConfigStep) : list Interceptor.t :=
  flat_map
    (fun step =>
       match step with
       | WithInterceptor interceptor => [interceptor]
       | UseStandardConfiguration | RejectErrorResponses =>
           [Interceptor.Build None None (Some rejectOnError) None]
       | _ => []
       end)
    steps.

(* ===================================================================== *)
(** ** Calls in flight

    A schedule is well formed when a call is started only while it is not
    in flight and settles only while it is; [inFlightAfter] follows the
    calls in flight along it. *)
(* ===================================================================== *)

Fixpoint inFlightAfter (schedule : list Tick) (inFlight : list nat) : option (list nat) :=
  match schedule with
  | [] => Some inFlight
  | Started call :: rest =>
      if existsb (Nat.eqb call) inFlight then None
      else inFlightAfter rest (call :: inFlight)
  | Settled call :: rest =>
      if existsb (Nat.eqb call) inFlight
      then inFlightAfter rest (filter (fun c => negb (Nat.eqb call c)) inFlight)
      else None
  end.

(* ===================================================================== *)
(** ** Vocabulary of the statements below *)
(* ===================================================================== *)

(** An ASCII letter; a character a URL scheme may go on with. *)
Definition isLetter (c : ascii) : bool :=
  RegExp.range "a" "z" c || RegExp.range "A" "Z" c.

Definition isSchemeChar (c : ascii) : bool :=
  isLetter c || RegExp.range "0" "9" c
  || RegExp.chr "+" c || RegExp.chr "-" c || RegExp.chr "." c.

(** The target starts with [//], or with a scheme, a colon and [//]. *)
Definition StartsAbsolute (url : string) : Prop :=
  exists scheme rest,
    list_ascii_of_string url = scheme ++ "/"%char :: "/"%char :: rest
    /\ (scheme = []
        \/ exists c cs,
             scheme = c :: cs ++ [":"%char]
             /\ isLetter c = true
             /\ Forall (fun x => isSchemeChar x = true) cs).

(** The events a run added to the trace. *)
Definition newEvents (before after : Runtime) : list Event :=
  skipn (List.length (trace before)) (trace after).

Definition eventIndex (e : Event) : nat :=
  match e with
  | EvHandler index _ _ => index
  | _ => 0
  end.

(** A call of one of the two handlers of a phase, on one of the [n]
    interceptors numbered from [lo]. *)
Definition PhaseEvent (lo n : nat) (successName errorName : HandlerName)
    (e : Event) : Prop :=
  exists index name value,
    e = EvHandler index name value
    /\ lo <= index < lo + n
    /\ (name = successName \/ name = errorName).

(** The handler calls [events] of a phase over [interceptors] follow the
    order of the list: they are calls of the phase's handlers only, the
    interceptors' numbers strictly increase along them, and the interceptor
    at each position is called (its success handler on the value, its
    failure handler on the reason) with what the interceptors before it
    made of the input, whenever it has that handler. *)
Definition InRegistrationOrder (interceptors : list Interceptor.t)
    (successName errorName : HandlerName)
    (chainBefore : nat -> Promise Value) (events : list Event) : Prop :=
  Forall (PhaseEvent 0 (List.length interceptors) successName errorName) events
  /\ StronglySorted lt (map eventIndex events)
  /\ forall index interceptor,
       nth_error interceptors index = Some interceptor ->
       match chainBefore index with
       | Fulfilled value =>
           getHandler interceptor successName <> None ->
           In (EvHandler index successName value) events
       | Rejected reason =>
           getHandler interceptor errorName <> None ->
           In (EvHandler index errorName reason) events
       | Pending => True
       end.

(** The interceptors take their turns one after the other.  [after index]
    is the promise and [calls index] the handler calls once the interceptors
    before position [index] are done; [success] and [failure] are the two
    handlers of the phase.  Nothing is called before the first interceptor;
    the interceptor at [index] that meets a value calls its success handler
    on it, and the one that meets a rejection calls its failure handler on
    the reason, each with the extra arguments of the phase: that call is
    added after the calls made so far, and what the handler returns is the
    promise the next interceptor meets.  Without the handler the
    interceptor calls nothing and hands on what it met. *)
Definition TakeTurns (interceptors : list Interceptor.t)
    (success failure : Interceptor.t -> option Handler)
    (successName errorName : HandlerName) (interceptorArgs : list Value)
    (input : Promise Value)
    (after : nat -> Promise Value) (calls : nat -> list Event) : Prop :=
  after 0 = input
  /\ calls 0 = []
  /\ forall index interceptor,
       nth_error interceptors index = Some interceptor ->
       match after index with
       | Fulfilled value =>
           match success interceptor with
           | Some h =>
               after (S index) = h value interceptorArgs
               /\ calls (S index) = calls index ++ [EvHandler index successName value]
           | None =>
               after (S index) = Fulfilled value
               /\ calls (S index) = calls index
           end
       | Rejected reason =>
           match failure interceptor with
           | Some h =>
               after (S index) = h reason interceptorArgs
               /\ calls (S index) = calls index ++ [EvHandler index errorName reason]
           | None =>
               after (S index) = Rejected reason
               /\ calls (S index) = calls index
           end
       | Pending =>
           after (S index) = Pending
           /\ calls (S index) = calls index
       end.

(** The run-time state with [events] added to its trace. *)
Definition extended (rt : Runtime) (events : list Event) : Runtime :=
  {| client := client rt; trace := trace rt ++ events |}.

(** The promise a method that cannot throw returns. *)
Definition returnedPromise (c : Completion (Promise Value)) : Promise Value :=
  match c with
  | Normal p => p
  | Throw e => Rejected e
  end.

Definition isTransport (e : Event) : bool :=
  match e with EvTransport _ => true | _ => false end.



(** The run-time state right after the synchronous start of a [fetch]. *)
Definition started (rt : Runtime) : Runtime :=
  {| client := snd (HttpClient.trackRequestStart (client rt));
     trace := trace rt ++ [EvTrackRequestStart] |}.

(** What a tick adds to the counter. *)
Definition delta (t : Tick) : Z :=
  match t with
  | Started _ => 1
  | Settled _ => -1
  end.

(** The two kinds of argument the documentation of [configure] names. *)
Definition isPlainObject (config : ConfigArg) : bool :=
  match config with ArgObject _ => true | _ => false end.

Definition isCallback (config : ConfigArg) : bool :=
  match config with ArgFunction _ => true | _ => false end.

(** [configure] ends with an exception. *)
Definition Fails (config : ConfigArg) (this : HttpClient.t) : Prop :=
  exists e, fst (HttpClient.configure config this) = Throw e.

(** The default headers of the configuration [configure] arrives at are a
    [Headers] instance. *)
Definition ResultingHeadersInstance (config : ConfigArg) (this : HttpClient.t) : Prop :=
  exists normalizedConfig this',
    HttpClient.normalizeConfig config this = (Normal normalizedConfig, this')
    /\ hasHeadersInstance (n_defaults normalizedConfig) = true.

(** The configuration a callback that returned leaves [configure] with: the
    [HttpClientConfiguration] it returned, or else the one it was handed. *)
Definition resulting (c : CallbackResult) : HttpClientConfiguration.t :=
  match returned c with
  | Some c' => c'
  | None => configAfter c
  end.

(** The [headers] of these options are a [Headers] instance. *)
Definition HeadersAreInstance (options : RequestInit.t) : Prop :=
  exists h, RequestInit.headers options = Some (HeadersInstance h).

(** A callback that throws right away. *)
Definition throwing (e : Value) : ConfigArg :=
  ArgFunction (fun seed => Throws e (HttpClientConfiguration.interceptors seed)).

Definition emptyTrace (this : HttpClient.t) : Runtime :=
  {| client := this; trace := [] |}.

(** The steps call [withBaseUrl]; the steps replace or change the defaults. *)
Definition setsBaseUrl (steps : list ConfigStep) : bool :=
  existsb (fun step => match step with WithBaseUrl _ => true | _ => false end) steps.

Definition setsDefaults (steps : list ConfigStep) : bool :=
  existsb (fun step =>
             match step with
             | WithDefaults _ | UseStandardConfiguration => true
             | _ => false
             end) steps.

(** The defaults [buildRequest] works with: [this.defaults || {}]. *)
Definition defaultsOf (this : HttpClient.t) : RequestInit.t :=
  match HttpClient.defaults this with
  | Some d => d
  | None => RequestInit.empty
  end.

(** The promise the request phase of a [fetch] ends with. *)
Definition requestPhase (this : HttpClient.t) (input : Input)
    (init : option RequestInit.t) : Promise Value :=
  returnedPromise
    (fst (processRequest (promiseMap VRequest (promiseOf (buildRequest this input init)))
            (HttpClient.interceptors this) (emptyTrace this))).

Definition isHandlerOf (name : HandlerName) (e : Event) : bool :=
  match e, name with
  | EvHandler _ request_ _, request_
  | EvHandler _ requestError_ _, requestError_
  | EvHandler _ response_ _, response_
  | EvHandler _ responseError_ _, responseError_ => true
  | _, _ => false
  end.

(** ** Concrete inputs *)

Definition clientWith (baseUrl : option string) (defaults : option RequestInit.t)
    (interceptors : list Interceptor.t) : HttpClient.t :=
  HttpClient.Build 0 false true baseUrl defaults interceptors.

Definition noHandlers : Interceptor.t := Interceptor.Build None None None None.

Definition cachedResponse : Response.t := Response.Build true 200 "cached".

(** An interceptor that answers a failed request phase with a response of
    its own, and looks at every response. *)
Definition recoverWithResponse : Interceptor.t :=
  Interceptor.Build None
    (Some (fun _ _ => Fulfilled (VResponse cachedResponse)))
    (Some (fun response _ => Fulfilled response))
    None.

Definition jsonDefaults : RequestInit.t :=
  RequestInit.withHeaders (PlainObject [("Content-Type", HString "application/json")]).

Definition getWithBodyError : Value :=
  VError "TypeError" "Request with GET/HEAD method cannot have body".

(** [{ method: 'POST', body: blob }] for a blob of type [text/csv]. *)
Definition postCsv : RequestInit.t :=
  RequestInit.Build (Some "POST") None (Some (BodyBlob "text/csv"))
    None None None None None None.

(** [{ method: 'POST', body: 'a=1' }] *)
Definition postText : RequestInit.t :=
  RequestInit.Build (Some "POST") None (Some (BodyString "a=1"))
    None None None None None None.

(** Defaults whose headers hold a function. *)
Definition tokenDefaults : RequestInit.t :=
  RequestInit.withHeaders
    (PlainObject [("Accept", HString "application/json");
                  ("Authorization", HFunction "() => token()" "Bearer abc")]).

(** An interceptor whose request handler throws. *)
Definition failingRequest : Interceptor.t :=
  Interceptor.Build (Some (fun _ _ => Rejected (VString "offline"))) None None None.

(* ===================================================================== *)
(** * Theorems *)
(* ===================================================================== *)

Section RegExpFacts.

Import RegExp.

Lemma nullable_Matches (r : t) : nullable r = true <-> Matches r [].
Proof.
  induction r as [ | | p | r1 IH1 r2 IH2 | r1 IH1 r2 IH2 | r IH ]; simpl.
  - split; [discriminate | intros H; inversion H].
  - split; [constructor | reflexivity].
  - split; [discriminate | intros H; inversion H].
  - rewrite andb_true_iff, IH1, IH2. split.
    + intros [H1 H2]. change (@nil ascii) with (@nil ascii ++ []). now constructor.
    + intros H. inversion H as [ | | ? ? w1 w2 H1 H2 | | | | ]; subst.
      match goal with Hw : _ ++ _ = [] |- _ => apply app_eq_nil in Hw as [-> ->] end.
      now split.
  - rewrite orb_true_iff, IH1, IH2. split.
    + intros [H | H]; [now apply MAltL | now apply MAltR].
    + intros H; inversion H; subst; tauto.
  - split; [constructor | reflexivity].
Qed.

(** A non-empty word of [Star r] starts with a non-empty word of [r]. *)
Lemma Matches_Star_cons (r : t) (c : ascii) (w : list ascii) :
  Matches (Star r) (c :: w) ->
  exists w1 w2, w = w1 ++ w2 /\ Matches r (c :: w1) /\ Matches (Star r) w2.
Proof.
  intros H. remember (Star r) as sr eqn:Esr. remember (c :: w) as cw eqn:Ecw.
  revert c w Ecw.
  induction H as [ | | | | | | r' w1 w2 H1 _ H2 IH2 ]; intros a u Ecw;
    try discriminate.
  injection Esr as ->.
  destruct w1 as [ | c1 w1 ]; simpl in Ecw.
  - now apply IH2.
  - injection Ecw as -> <-. now exists w1, w2.
Qed.

Lemma deriv_Matches (r : t) (c : ascii) (w : list ascii) :
  Matches (deriv c r) w <-> Matches r (c :: w).
Proof.
  revert w.
  induction r as [ | | p | r1 IH1 r2 IH2 | r1 IH1 r2 IH2 | r IH ]; intros w; simpl.
  - split; intros H; inversion H.
  - split; intros H; inversion H.
  - destruct (p c) eqn:Hp; split; intros H; inversion H; subst.
    + now constructor.
    + constructor.
    + congruence.
  - assert (Hseq : Matches (Seq (deriv c r1) r2) w ->
                   Matches (Seq r1 r2) (c :: w)).
    { intros H. inversion H as [ | | ? ? w1 w2 H1 H2 | | | | ]; subst.
      apply IH1 in H1. change (c :: w1 ++ w2) with ((c :: w1) ++ w2).
      now constructor. }
    assert (Hback : Matches (Seq r1 r2) (c :: w) ->
                    Matches (Seq (deriv c r1) r2) w \/
                    (Matches r1 [] /\ Matches (deriv c r2) w)).
    { intros H. inversion H as [ | | ? ? w1 w2 H1 H2 | | | | ]; subst.
      match goal with Hw : _ ++ _ = _ :: _ |- _ => rename Hw into Hw' end.
      destruct w1 as [ | c1 w1 ]; simpl in Hw'.
      - subst w2. right. split; [assumption | now apply IH2].
      - injection Hw' as -> <-. left. constructor; [now apply IH1 | assumption]. }
    destruct (nullable r1) eqn:Hn.
    + split.
      * intros H. inversion H; subst; [now apply Hseq | ].
        change (c :: w) with ([] ++ c :: w). constructor.
        -- now apply nullable_Matches.
        -- now apply IH2.
      * intros H. destruct (Hback H) as [H' | [_ H']];
          [now apply MAltL | now apply MAltR].
    + split; [exact Hseq | ].
      intros H. destruct (Hback H) as [H' | [H' _]]; [assumption | ].
      apply nullable_Matches in H'. congruence.
  - split; intros H; inversion H; subst.
    + apply MAltL. now apply IH1.
    + apply MAltR. now apply IH2.
    + apply MAltL. now apply IH1.
    + apply MAltR. now apply IH2.
  - split.
    + intros H. inversion H as [ | | ? ? w1 w2 H1 H2 | | | | ]; subst.
      change (c :: w1 ++ w2) with ((c :: w1) ++ w2).
      constructor; [now apply IH | assumption].
    + intros H. apply Matches_Star_cons in H as (w1 & w2 & -> & H1 & H2).
      constructor; [now apply IH | assumption].
Qed.

Lemma matchesPrefix_spec (r : t) (w : list ascii) :
  matchesPrefix r w = true <-> exists p rest, w = p ++ rest /\ Matches r p.
Proof.
  revert r. induction w as [ | c w IH ]; intros r; simpl.
  - rewrite orb_false_r, nullable_Matches. split.
    + intros H. now exists [], [].
    + intros (p & rest & Hw & H). symmetry in Hw.
      apply app_eq_nil in Hw as [-> _]. assumption.
  - rewrite orb_true_iff, nullable_Matches, IH. split.
    + intros [H | (p & rest & -> & H)].
      * now exists [], (c :: w).
      * exists (c :: p), rest. split; [reflexivity | now apply deriv_Matches].
    + intros (p & rest & Hw & H). destruct p as [ | c' p ]; simpl in Hw.
      * now left.
      * injection Hw as <- ->. right. exists p, rest.
        split; [reflexivity | now apply deriv_Matches].
Qed.

Lemma test_spec (r : t) (str : string) :
  test r str = true <-> HasMatchAtStart r str.
Proof. apply matchesPrefix_spec. Qed.

End RegExpFacts.

Lemma orEmpty_Some (b : string) : orEmpty (Some b) = b.
Proof.
  unfold orEmpty, truthyString. destruct (String.eqb_spec b ""); simpl; congruence.
Qed.

(* ===================================================================== *)
(** ** Request URLs *)
(* ===================================================================== *)

Section AbsoluteUrlFacts.

Import RegExp.

Lemma Matches_Class_inv p w :
  Matches (Class p) w -> exists c, w = [c] /\ p c = true.
Proof. intros H. inversion H; subst. eauto. Qed.

Lemma Matches_Seq_inv r1 r2 w :
  Matches (Seq r1 r2) w -> exists w1 w2, w = w1 ++ w2 /\ Matches r1 w1 /\ Matches r2 w2.
Proof. intros H. inversion H; subst. eauto. Qed.

Lemma Matches_Opt_inv r w : Matches (Opt r) w -> w = [] \/ Matches r w.
Proof.
  intros H. inversion H as [ | | | ? ? ? H1 | ? ? ? H1 | | ]; subst.
  - now right.
  - inversion H1. now left.
Qed.

Lemma Matches_Star_Class p w :
  Matches (Star (Class p)) w <-> Forall (fun c => p c = true) w.
Proof.
  split.
  - intros H. remember (Star (Class p)) as r eqn:Er.
    induction H as [ | | | | | | r' w1 w2 H1 _ _ IH2 ]; try discriminate.
    + constructor.
    + injection Er as ->. apply Matches_Class_inv in H1 as (c & -> & Hc).
      constructor; [ exact Hc | now apply IH2 ].
  - induction 1 as [ | c w Hc _ IH ].
    + constructor.
    + change (c :: w) with ([c] ++ w). constructor; [ now constructor | exact IH ].
Qed.

Lemma ignoreCase_letter c : ignoreCase (range "a" "z") c = isLetter c.
Proof.
  destruct c as [ [ | ] [ | ] [ | ] [ | ] [ | ] [ | ] [ | ] [ | ] ]; reflexivity.
Qed.

Lemma ignoreCase_schemeChar c :
  ignoreCase
    (union (range "a" "z")
       (union (range "0" "9") (union (chr "+") (union (chr "-") (chr "."))))) c
  = isSchemeChar c.
Proof.
  destruct c as [ [ | ] [ | ] [ | ] [ | ] [ | ] [ | ] [ | ] [ | ] ]; reflexivity.
Qed.

Lemma ignoreCase_chr (x c : ascii) :
  isLetter x = false -> ignoreCase (chr x) c = true -> c = x.
Proof.
  unfold ignoreCase, chr. intros Hx H.
  apply orb_true_iff in H as [ H | H ]; [ apply orb_true_iff in H as [ H | H ] | ];
    apply Ascii.eqb_eq in H.
  - exact H.
  - subst x. revert Hx.
    destruct c as [ [ | ] [ | ] [ | ] [ | ] [ | ] [ | ] [ | ] [ | ] ];
      try reflexivity; discriminate.
  - subst x. revert Hx.
    destruct c as [ [ | ] [ | ] [ | ] [ | ] [ | ] [ | ] [ | ] [ | ] ];
      try reflexivity; discriminate.
Qed.

Lemma ignoreCase_chr_same (x : ascii) : ignoreCase (chr x) x = true.
Proof. unfold ignoreCase, chr. now rewrite Ascii.eqb_refl. Qed.

(** X6.  The language of [absoluteUrlRegexp], spelled out: an optional
    scheme (a letter, then letters, digits, [+], [-] and [.], then a colon)
    and two slashes. *)
Theorem absoluteUrlRegexp_language (url : string) :
  HasMatchAtStart absoluteUrlRegexp url <-> StartsAbsolute url.
Proof.
  unfold HasMatchAtStart, StartsAbsolute, absoluteUrlRegexp. cbv zeta. split.
  - intros (w & rest & Hurl & H).
    apply Matches_Seq_inv in H as (scheme & slashes & -> & Hscheme & Hslashes).
    apply Matches_Seq_inv in Hslashes as (s1 & s2 & -> & Hs1 & Hs2).
    apply Matches_Class_inv in Hs1 as (c1 & -> & Hc1).
    apply Matches_Class_inv in Hs2 as (c2 & -> & Hc2).
    apply ignoreCase_chr in Hc1; [ subst c1 | reflexivity ].
    apply ignoreCase_chr in Hc2; [ subst c2 | reflexivity ].
    exists scheme, rest. split.
    + rewrite Hurl, <- app_assoc. reflexivity.
    + apply Matches_Opt_inv in Hscheme as [ -> | Hscheme ]; [ now left | right ].
      apply Matches_Seq_inv in Hscheme as (l & tl & -> & Hl & Htl).
      apply Matches_Seq_inv in Htl as (cs & colon & -> & Hcs & Hcolon).
      apply Matches_Class_inv in Hl as (c & -> & Hc).
      apply Matches_Class_inv in Hcolon as (c3 & -> & Hc3).
      apply ignoreCase_chr in Hc3; [ subst c3 | reflexivity ].
      rewrite ignoreCase_letter in Hc.
      apply Matches_Star_Class in Hcs.
      exists c, cs. repeat split; [ exact Hc | ].
      eapply Forall_impl; [ | exact Hcs ]. intros a Ha. cbv beta in Ha.
      now rewrite ignoreCase_schemeChar in Ha.
  - intros (scheme & rest & Hurl & Hscheme).
    exists (scheme ++ ["/"; "/"]%char), rest. split.
    + rewrite Hurl, <- app_assoc. reflexivity.
    + constructor.
      * destruct Hscheme as [ -> | (c & cs & -> & Hc & Hcs) ].
        -- apply MAltR. constructor.
        -- apply MAltL. change (c :: cs ++ [":"%char]) with ([c] ++ cs ++ [":"%char]).
           constructor; [ constructor; now rewrite ignoreCase_letter | ].
           constructor.
           ++ apply Matches_Star_Class. eapply Forall_impl; [ | exact Hcs ].
              intros a Ha. cbv beta. now rewrite ignoreCase_schemeChar.
           ++ constructor. apply ignoreCase_chr_same.
      * change ["/"; "/"]%char with (["/"%char] ++ ["/"%char]).
        constructor; constructor; apply ignoreCase_chr_same.
Qed.

End AbsoluteUrlFacts.

Example absoluteUrlRegexp_examples :
  map (RegExp.test absoluteUrlRegexp)
      ["http://host/a"; "HTTPS://HOST"; "git+ssh://host"; "//cdn/lib.js";
       "users"; "/api/users"; "mailto:someone"; "1ab://x"; "http:/x"; ""; "a//b"]
  = [true; true; true; true; false; false; false; false; false; false; false].
Proof. reflexivity. Qed.

(** C1.  A target that matches [absoluteUrlRegexp] (some prefix of it is in
    the language of the pattern, letter case ignored) is returned as it is;
    any other target is returned with the configured base URL in front of
    it, the empty string when the base URL is not set. *)
Theorem getRequestUrl_absolute_or_prefixed (baseUrl : option string) (url : string) :
  (RegExp.HasMatchAtStart absoluteUrlRegexp url ->
   getRequestUrl baseUrl url = url) /\
  (~ RegExp.HasMatchAtStart absoluteUrlRegexp url ->
   getRequestUrl baseUrl url
   = (match baseUrl with Some b => b | None => "" end ++ url)%string).
Proof.
  unfold getRequestUrl. split; intros H.
  - apply test_spec in H. now rewrite H.
  - destruct (RegExp.test absoluteUrlRegexp url) eqn:E.
    + apply test_spec in E. contradiction.
    + destruct baseUrl as [ b | ]; [ now rewrite orEmpty_Some | reflexivity ].
Qed.

Lemma getRequestUrl_absolute_or_prefixed_witness :
  getRequestUrl (Some "/api/") "https://example.org/users" = "https://example.org/users"
  /\ getRequestUrl (Some "/api/") "users" = "/api/users"
  /\ getRequestUrl None "users" = "users".
Proof.
  split; [ | split ].
  - apply (proj1 (getRequestUrl_absolute_or_prefixed (Some "/api/") "https://example.org/users")).
    apply test_spec. reflexivity.
  - apply (proj2 (getRequestUrl_absolute_or_prefixed (Some "/api/") "users")).
    intros H. apply test_spec in H. discriminate H.
  - apply (proj2 (getRequestUrl_absolute_or_prefixed None "users")).
    intros H. apply test_spec in H. discriminate H.
Defined.

(* ===================================================================== *)
(** ** Header lists *)
(* ===================================================================== *)

Section HeadersFacts.

Import Headers.

(** Two names that differ in letter case only name the same headers. *)
Lemma named_same name name' e :
  toLowerCase name = toLowerCase name' -> named name e = named name' e.
Proof. unfold named. now intros ->. Qed.

Lemma named_other name name' e :
  toLowerCase name <> toLowerCase name' -> named name e = true -> named name' e = false.
Proof.
  unfold named. intros Hne H. apply String.eqb_eq in H. apply String.eqb_neq. congruence.
Qed.

Lemma has_filter h name : has h name = true <-> filter (named name) h <> [].
Proof.
  unfold has. induction h as [ | e h IH ]; simpl.
  - split; [ discriminate | congruence ].
  - destruct (named name e); simpl; [ | exact IH ].
    split; [ discriminate | reflexivity ].
Qed.

Lemma get_filter h h' name :
  filter (named name) h' = filter (named name) h -> get h' name = get h name.
Proof. unfold get. now intros ->. Qed.

Lemma filter_append_other h name name' value :
  toLowerCase name <> toLowerCase name' ->
  filter (named name') (append h name value) = filter (named name') h.
Proof.
  intros Hne. unfold append. rewrite filter_app. simpl.
  unfold named at 2. simpl.
  destruct (String.eqb_spec (toLowerCase name) (toLowerCase name')) as [ E | _ ];
    [ contradiction | apply app_nil_r ].
Qed.

Lemma filter_append_same h name value :
  filter (named name) (append h name value)
  = filter (named name) h ++ [(toLowerCase name, value)].
Proof.
  unfold append. rewrite filter_app. simpl. unfold named at 2. simpl.
  now rewrite String.eqb_refl.
Qed.

Lemma filter_without_other h name name' :
  toLowerCase name <> toLowerCase name' ->
  filter (named name') (filter (fun e => negb (named name e)) h) = filter (named name') h.
Proof.
  intros Hne. induction h as [ | e h IH ]; simpl; [ reflexivity | ].
  destruct (named name e) eqn:Hn; simpl.
  - rewrite (named_other name name' e Hne Hn). exact IH.
  - destruct (named name' e); [ now rewrite IH | exact IH ].
Qed.

Lemma filter_replace_other h name name' value :
  toLowerCase name <> toLowerCase name' ->
  filter (named name') (replace name value h) = filter (named name') h.
Proof.
  intros Hne. induction h as [ | e h IH ]; simpl; [ reflexivity | ].
  destruct (named name e) eqn:Hn.
  - simpl. pose proof (named_other name name' e Hne Hn) as Hn'.
    unfold named in Hn' |- *. simpl. rewrite Hn'.
    apply filter_without_other. exact Hne.
  - simpl. destruct (named name' e); [ now rewrite IH | exact IH ].
Qed.

(** [set] touches the headers of the name it is given only. *)
Lemma filter_set_other h name name' value :
  toLowerCase name <> toLowerCase name' ->
  filter (named name') (set h name value) = filter (named name') h.
Proof.
  intros Hne. unfold set. destruct (has h name).
  - now apply filter_replace_other.
  - now apply filter_append_other.
Qed.

Lemma has_append h name value name' :
  has (append h name value) name'
  = has h name' || (toLowerCase name =? toLowerCase name').
Proof.
  unfold has, append. rewrite existsb_app. simpl. now rewrite orb_false_r.
Qed.

Lemma has_replace h name value : has h name = true -> has (replace name value h) name = true.
Proof.
  unfold has. induction h as [ | e h IH ]; simpl; [ discriminate | ].
  destruct (named name e) eqn:Hn; simpl.
  - intros _. unfold named in Hn |- *. simpl. now rewrite Hn.
  - rewrite Hn. exact IH.
Qed.

(** After [set], the header is there. *)
Lemma has_set_same h name value : has (set h name value) name = true.
Proof.
  unfold set. destruct (has h name) eqn:Hh.
  - now apply has_replace.
  - rewrite has_append, String.eqb_refl. apply orb_true_r.
Qed.

Lemma has_same h name name' :
  toLowerCase name = toLowerCase name' -> has h name = has h name'.
Proof.
  intros E. unfold has. induction h as [ | e h IH ]; simpl; [ reflexivity | ].
  now rewrite IH, (named_same name name' e E).
Qed.

(** [set] removes no name. *)
Lemma has_set_mono h name value name' :
  has h name' = true -> has (set h name value) name' = true.
Proof.
  intros Hh.
  destruct (String.eqb_spec (toLowerCase name) (toLowerCase name')) as [ E | Hne ].
  - rewrite <- (has_same _ name name' E). apply has_set_same.
  - apply has_filter. rewrite filter_set_other by exact Hne. now apply has_filter.
Qed.

(** A header set where there was none of its name has the value given. *)
Lemma get_set_absent h name value :
  has h name = false -> get (set h name value) name = Some value.
Proof.
  intros Hh. unfold set. rewrite Hh. unfold get. rewrite filter_append_same.
  assert (filter (named name) h = []) as ->.
  { destruct (filter (named name) h) eqn:E; [ reflexivity | ].
    assert (has h name = true) by (apply has_filter; congruence). congruence. }
  reflexivity.
Qed.

End HeadersFacts.

Section DefaultHeadersFacts.

(** A header the request has is left as it is. *)
Lemma setDefaultHeaders_keeps defaultHeaders : forall headers name,
  Headers.has headers name = true ->
  filter (Headers.named name) (setDefaultHeaders headers defaultHeaders)
  = filter (Headers.named name) headers.
Proof.
  unfold setDefaultHeaders.
  induction defaultHeaders as [ | [n v] rest IH ]; intros headers name Hh; simpl;
    [ reflexivity | ].
  destruct (Headers.has headers n) eqn:Hn; simpl.
  - now apply IH.
  - assert (Hne : toLowerCase n <> toLowerCase name).
    { intros E. rewrite (has_same headers n name E) in Hn. congruence. }
    rewrite IH.
    + now apply filter_set_other.
    + now apply has_set_mono.
Qed.

Lemma setDefaultHeaders_mono defaultHeaders : forall headers name,
  Headers.has headers name = true ->
  Headers.has (setDefaultHeaders headers defaultHeaders) name = true.
Proof.
  intros headers name Hh. apply has_filter.
  rewrite setDefaultHeaders_keeps by exact Hh. now apply has_filter.
Qed.

(** Every default header is on the request afterwards. *)
Lemma setDefaultHeaders_adds defaultHeaders : forall headers name value,
  In (name, value) defaultHeaders ->
  Headers.has (setDefaultHeaders headers defaultHeaders) name = true.
Proof.
  induction defaultHeaders as [ | [n v] rest IH ]; intros headers name value Hin;
    [ contradiction | ].
  destruct Hin as [ E | Hin ].
  - injection E as -> ->.
    change (setDefaultHeaders headers ((name, value) :: rest))
      with (setDefaultHeaders
              (if negb (Headers.has headers name)
               then Headers.set headers name (stringOfHeaderValue value) else headers) rest).
    apply setDefaultHeaders_mono.
    destruct (Headers.has headers name) eqn:Hh; simpl;
      [ exact Hh | apply has_set_same ].
  - change (setDefaultHeaders headers ((n, v) :: rest))
      with (setDefaultHeaders
              (if negb (Headers.has headers n)
               then Headers.set headers n (stringOfHeaderValue v) else headers) rest).
    now apply IH with (value := value).
Qed.

(** X4.  The first default header of a name the request lacks gives the
    request its value. *)
Theorem setDefaultHeaders_value before name value after : forall headers,
  Headers.has headers name = false ->
  (forall e, In e before -> toLowerCase (fst e) <> toLowerCase name) ->
  Headers.get (setDefaultHeaders headers (before ++ (name, value) :: after)) name
  = Some (stringOfHeaderValue value).
Proof.
  induction before as [ | [n v] before IH ]; intros headers Hh Hbefore.
  - change (setDefaultHeaders headers ([] ++ (name, value) :: after))
      with (setDefaultHeaders
              (if negb (Headers.has headers name)
               then Headers.set headers name (stringOfHeaderValue value) else headers) after).
    rewrite Hh. simpl negb. cbv iota.
    rewrite (get_filter (Headers.set headers name (stringOfHeaderValue value))).
    + now apply get_set_absent.
    + apply setDefaultHeaders_keeps. apply has_set_same.
  - change (setDefaultHeaders headers (((n, v) :: before) ++ (name, value) :: after))
      with (setDefaultHeaders
              (if negb (Headers.has headers n)
               then Headers.set headers n (stringOfHeaderValue v) else headers)
              (before ++ (name, value) :: after)).
    apply IH.
    + assert (Hne : toLowerCase n <> toLowerCase name)
        by (apply (Hbefore (n, v)); now left).
      destruct (Headers.has headers n); simpl; [ exact Hh | ].
      destruct (Headers.has (Headers.set headers n (stringOfHeaderValue v)) name) eqn:E;
        [ | reflexivity ].
      apply has_filter in E. rewrite filter_set_other in E by exact Hne.
      apply has_filter in E. congruence.
    + intros e He. apply Hbefore. now right.
Qed.

End DefaultHeadersFacts.

Lemma setDefaultHeaders_value_witness :
  Headers.get
    (setDefaultHeaders [("accept", "text/html")]
       ([("Accept", HString "*/*")] ++ ("X-Test", HString "1") :: [("x-test", HString "2")]))
    "X-Test"
  = Some "1".
Proof.
  apply (setDefaultHeaders_value [("Accept", HString "*/*")] "X-Test" (HString "1")
           [("x-test", HString "2")] [("accept", "text/html")]).
  - reflexivity.
  - intros e [ <- | [] ]. discriminate.
Defined.

(* ===================================================================== *)
(** ** Building the request: default headers *)
(* ===================================================================== *)

Section BuildRequestFacts.

Variables (this : HttpClient.t) (url : string) (init : RequestInit.t).

Let defaults := match HttpClient.defaults this with
                | Some d => d
                | None => RequestInit.empty
                end.
Let parsedDefaultHeaders := parseHeaderValues (RequestInit.headers defaults).
Let callHeaders := newHeaders (RequestInit.headers init).

(** The request built from a URL: the headers given at the call (and the
    content type of the body, if they name none), then the default content
    type where the call named none, then the other defaults, then the type
    of a blob body. *)
Lemma buildRequest_url_headers request :
  buildRequest this (InputUrl url) (Some init) = Normal request ->
  exists built,
    (built = callHeaders
     \/ exists ct, Headers.has callHeaders "Content-Type" = false
                   /\ built = Headers.append callHeaders "Content-Type" ct)
    /\ Request.headers request
       = let backfilled :=
           if negb (truthyOption (Headers.get callHeaders "Content-Type"))
              && Headers.has (newHeaders (Some (PlainObject parsedDefaultHeaders)))
                   "content-type"
           then Headers.set built "Content-Type"
                  (match Headers.get (newHeaders (Some (PlainObject parsedDefaultHeaders)))
                           "content-type" with
                   | Some v => v
                   | None => "null"
                   end)
           else built in
         let merged := setDefaultHeaders backfilled parsedDefaultHeaders in
         match blobType (RequestInit.body init) with
         | Some type => Headers.set merged "Content-Type" type
         | None => merged
         end.
Proof.
  unfold buildRequest. fold defaults. fold parsedDefaultHeaders.
  set (requestInit := RequestInit.assignOpt _ _).
  assert (Hh : newHeaders (RequestInit.headers requestInit) = callHeaders).
  { subst requestInit callHeaders.
    destruct init as [ m h b md cr ca rd rf ig ]; simpl.
    destruct (truthyBody b); destruct b as [ b | ]; simpl;
      destruct h as [ h | ]; reflexivity. }
  rewrite Hh.
  unfold newRequest. rewrite Hh.
  destruct (RequestInit.body requestInit) as [ b | ].
  - destruct ((methodName (RequestInit.method requestInit) =? "GET")
              || (methodName (RequestInit.method requestInit) =? "HEAD"));
      [ discriminate | ].
    intros E. injection E as <-. simpl.
    destruct (bodyContentType b) as [ ct | ].
    + destruct (Headers.has callHeaders "Content-Type") eqn:Hct.
      * exists callHeaders. split; [ now left | reflexivity ].
      * exists (Headers.append callHeaders "Content-Type" ct).
        split; [ right; now exists ct | reflexivity ].
    + exists callHeaders. split; [ now left | reflexivity ].
  - intros E. injection E as <-. simpl.
    exists callHeaders. split; [ now left | reflexivity ].
Qed.

(** X2.  Apart from an empty [Content-Type], and from the [Content-Type]
    of a request whose body is a typed blob, a header given at the call has
    on the request the value it was given. *)
Theorem buildRequest_keeps_call_headers request name :
  buildRequest this (InputUrl url) (Some init) = Normal request ->
  Headers.has callHeaders name = true ->
  (toLowerCase name = "content-type" ->
   truthyOption (Headers.get callHeaders "Content-Type") = true
   /\ blobType (RequestInit.body init) = None) ->
  Headers.get (Request.headers request) name = Headers.get callHeaders name.
Proof.
  intros Hbuild Hhas Hct.
  destruct (buildRequest_url_headers request Hbuild) as (built & Hbuilt & ->).
  apply get_filter. cbv zeta.
  assert (Hother : toLowerCase name <> "content-type" ->
                   toLowerCase "Content-Type" <> toLowerCase name).
  { intros H E. apply H. now rewrite <- E. }
  assert (H0 : filter (Headers.named name) built = filter (Headers.named name) callHeaders).
  { destruct Hbuilt as [ -> | (ct & Habsent & ->) ]; [ reflexivity | ].
    apply filter_append_other. intros E.
    rewrite (has_same callHeaders _ _ E) in Habsent. congruence. }
  match goal with
  | |- context [setDefaultHeaders ?b _] => set (backfilled := b)
  end.
  assert (H1 : filter (Headers.named name) backfilled
               = filter (Headers.named name) callHeaders).
  { subst backfilled.
    destruct (truthyOption (Headers.get callHeaders "Content-Type")) eqn:Htruthy;
      simpl; [ exact H0 | ].
    destruct (Headers.has _ "content-type"); [ | exact H0 ].
    rewrite filter_set_other; [ exact H0 | ].
    apply Hother. intros E. destruct (Hct E) as [Ht _]. congruence. }
  assert (H2 : filter (Headers.named name) (setDefaultHeaders backfilled parsedDefaultHeaders)
               = filter (Headers.named name) callHeaders).
  { rewrite setDefaultHeaders_keeps; [ exact H1 | ].
    apply has_filter. rewrite H1. now apply has_filter. }
  destruct (blobType (RequestInit.body init)) as [ type | ] eqn:Hblob; [ | exact H2 ].
  rewrite filter_set_other; [ exact H2 | ].
  apply Hother. intros E. destruct (Hct E) as [_ Hb]. congruence.
Qed.

(** X3.  Every default header is on the request that was built. *)
Theorem buildRequest_adds_default_headers request name value :
  buildRequest this (InputUrl url) (Some init) = Normal request ->
  In (name, value) parsedDefaultHeaders ->
  Headers.has (Request.headers request) name = true.
Proof.
  intros Hbuild Hin.
  destruct (buildRequest_url_headers request Hbuild) as (built & _ & ->).
  cbv zeta.
  destruct (blobType (RequestInit.body init)).
  - apply has_set_mono. now apply setDefaultHeaders_adds with (value := value).
  - now apply setDefaultHeaders_adds with (value := value).
Qed.

End BuildRequestFacts.

Lemma buildRequest_keeps_call_headers_witness :
  let this := clientWith (Some "/api/") (Some jsonDefaults) [] in
  let init := RequestInit.withHeaders (PlainObject [("content-type", HString "text/plain")]) in
  Headers.get
    [("content-type", "text/plain")] "Content-Type"
  = Headers.get (newHeaders (RequestInit.headers init)) "Content-Type".
Proof.
  intros this init.
  apply (buildRequest_keeps_call_headers this "users" init
           (Request.Build "/api/users" "GET" [("content-type", "text/plain")] None init)
           "Content-Type").
  - reflexivity.
  - reflexivity.
  - intros _. split; reflexivity.
Defined.

Lemma buildRequest_adds_default_headers_witness :
  let this := clientWith (Some "/api/") (Some jsonDefaults) [] in
  Headers.has [("content-type", "application/json")] "Content-Type" = true.
Proof.
  intros this.
  apply (buildRequest_adds_default_headers this "users" RequestInit.empty
           (Request.Build "/api/users" "GET" [("content-type", "application/json")] None
              (RequestInit.withHeaders (PlainObject [])))
           "Content-Type" (HString "application/json")).
  - reflexivity.
  - simpl. now left.
Defined.

(** C2, at the input where the code departs from it.  The client's default
    headers name a content type; the call sets [Content-Type] itself, to
    the empty string.  [Headers.get] returns [''] for it, [!requestContentType]
    takes that for "no content type", and the default replaces the value
    set at call time. *)
Theorem default_content_type_replaces_empty_one :
  let this := clientWith (Some "/api/") (Some jsonDefaults) [] in
  let init := RequestInit.withHeaders (PlainObject [("Content-Type", HString "")]) in
  Headers.get (newHeaders (RequestInit.headers init)) "Content-Type" = Some ""
  /\ buildRequest this (InputUrl "users") (Some init)
     = Normal (Request.Build "/api/users" "GET"
                 [("content-type", "application/json")] None
                 (RequestInit.withHeaders (PlainObject [("Content-Type", HString "")]))).
Proof. split; reflexivity. Qed.

(** Any other value set at call time stays, and so does every other header. *)
Example call_time_headers_win :
  let this :=
    clientWith (Some "/api/")
      (Some (RequestInit.withHeaders
               (PlainObject [("Content-Type", HString "application/json");
                             ("X-Test", HFunction "() => token" "1")]))) [] in
  let init := RequestInit.withHeaders
                (PlainObject [("content-type", HString "text/plain");
                              ("X-Other", HString "2")]) in
  option_map Request.headers
    (match buildRequest this (InputUrl "users") (Some init) with
     | Normal request => Some request
     | Throw _ => None
     end)
  = Some [("content-type", "text/plain"); ("x-other", "2"); ("x-test", "1")].
Proof. reflexivity. Qed.

(* ===================================================================== *)
(** ** [configure] *)
(* ===================================================================== *)

Lemma typeof_cases (config : ConfigArg) :
  (typeof config = "object" /\ (config = ArgNull \/ exists o, config = ArgObject o))
  \/ (typeof config = "function" /\ exists f, config = ArgFunction f)
  \/ (typeof config <> "object" /\ typeof config <> "function"
      /\ isPlainObject config = false /\ isCallback config = false).
Proof.
  destruct config; simpl;
    try (right; right; repeat split; discriminate);
    [ left | left | right; left ]; split; eauto.
Qed.

(** [configure] on a function, by what the call of the function does. *)
Lemma configure_callback (f : HttpClientConfiguration.t -> CallbackOutcome)
    (this : HttpClient.t) :
  HttpClient.configure (ArgFunction f) this
  = match f (seedOf this) with
    | Throws e array => (Throw e, HttpClient.setInterceptors this array)
    | Returns c =>
        let config := resulting c in
        if isHeaders (RequestInit.headers (HttpClientConfiguration.defaults config))
        then (Throw (VError "Error" "Default headers must be a plain object."),
              HttpClient.setInterceptors this (arrayAfter c))
        else (Normal tt,
              HttpClient.Build (HttpClient.activeRequestCount this)
                (HttpClient.isRequesting this) true
                (HttpClientConfiguration.baseUrl config)
                (Some (HttpClientConfiguration.defaults config))
                (HttpClientConfiguration.interceptors config))
    end.
Proof.
  unfold HttpClient.configure, HttpClient.normalizeConfig, bind, read, modify, throw, ret.
  simpl. fold (seedOf this).
  destruct (f (seedOf this)) as [ c | e array ]; [ | reflexivity ].
  unfold resulting. destruct (returned c) as [ c' | ]; simpl;
    destruct (isHeaders _); reflexivity.
Qed.

(** The claim as the specification words it fails twice.  [null] is neither
    a plain object nor a function, yet [typeof null] is ['object'] and
    [configure(null)] returns.  And a callback that throws makes [configure]
    fail with what it threw, although the argument is a function and no
    configuration is arrived at. *)
Lemma configure_accepts_null_and_passes_on_callback_error :
  ((isPlainObject ArgNull = false /\ isCallback ArgNull = false)
   /\ HttpClient.configure ArgNull HttpClient.initial
      = (Normal tt, HttpClient.Build 0 false true None None [])
   /\ ~ Fails ArgNull HttpClient.initial)
  /\ (isCallback (throwing (VString "boom")) = true
      /\ ~ ResultingHeadersInstance (throwing (VString "boom")) HttpClient.initial
      /\ HttpClient.configure (throwing (VString "boom")) HttpClient.initial
         = (Throw (VString "boom"), HttpClient.initial)
      /\ Fails (throwing (VString "boom")) HttpClient.initial).
Proof.
  split; [ repeat split; intros [e He]; discriminate He | ].
  split; [ reflexivity | split; [ | split; [ reflexivity | ] ] ].
  - intros (n & this' & E & _). discriminate E.
  - now exists (VString "boom").
Qed.

(** C8, amended.  [configure] fails, with the error [e], in exactly four
    cases: [typeof] its argument is neither ['object'] nor ['function']
    ([Error: invalid config]); the argument is an object whose [headers] are
    a [Headers] instance; the argument is a function that throws [e] when it
    is called with the configuration of the client; or it is a function that
    returns and the default headers of the configuration it leaves -- the
    one it returned, or else the one it was handed -- are a [Headers]
    instance ([Error: Default headers must be a plain object.] in both
    cases).  ([null], whose [typeof] is ['object'], is accepted.) *)
Theorem configure_fails_iff (config : ConfigArg) (this : HttpClient.t) (e : Value) :
  fst (HttpClient.configure config this) = Throw e
  <-> (typeof config <> "object" /\ typeof config <> "function"
       /\ e = VError "Error" "invalid config")
      \/ (exists o,
            config = ArgObject o
            /\ HeadersAreInstance o
            /\ e = VError "Error" "Default headers must be a plain object.")
      \/ (exists f array,
            config = ArgFunction f
            /\ f (seedOf this) = Throws e array)
      \/ (exists f c,
            config = ArgFunction f
            /\ f (seedOf this) = Returns c
            /\ HeadersAreInstance (HttpClientConfiguration.defaults (resulting c))
            /\ e = VError "Error" "Default headers must be a plain object.").
Proof.
  assert (Hinstance : forall options,
             isHeaders (RequestInit.headers options) = true <-> HeadersAreInstance options).
  { intros options. unfold HeadersAreInstance, isHeaders.
    destruct (RequestInit.headers options) as [ [ entries | h ] | ].
    - split; [ discriminate | intros [h H]; discriminate H ].
    - split; [ intros _; now exists h | reflexivity ].
    - split; [ discriminate | intros [h H]; discriminate H ]. }
  destruct config as [ | | b | n | str | o | f ];
    [ .. | rewrite configure_callback; cbv zeta ];
    unfold HttpClient.configure, HttpClient.normalizeConfig, bind; simpl.
  1, 3, 4, 5:
    (split;
     [ intros E; injection E as <-; left; repeat split; discriminate
     | intros [ (_ & _ & ->) | [ (o & H & _) | [ (f & a & H & _) | (f & c & H & _) ] ] ];
       [ reflexivity | discriminate H .. ] ]).
  - split; [ discriminate | ].
    intros [ (H & _) | [ (o & H & _) | [ (f & a & H & _) | (f & c & H & _) ] ] ];
      [ now contradiction H | discriminate H .. ].
  - destruct (isHeaders (RequestInit.headers o)) eqn:Hh; simpl.
    + split.
      * intros E. injection E as <-. right; left. exists o.
        repeat split. now apply Hinstance.
      * intros [ (H & _) | [ (o' & _ & _ & ->) | [ (f & a & H & _) | (f & c & H & _) ] ] ];
          [ now contradiction H | reflexivity | discriminate H .. ].
    + split; [ discriminate | ].
      intros [ (H & _) | [ (o' & H & Hi & _) | [ (f & a & H & _) | (f & c & H & _) ] ] ];
        [ now contradiction H | | discriminate H .. ].
      injection H as <-. apply Hinstance in Hi. congruence.
  - destruct (f (seedOf this)) as [ c | e' array ] eqn:Ef; cbn [fst].
    + destruct (isHeaders (RequestInit.headers
                             (HttpClientConfiguration.defaults (resulting c)))) eqn:Hh; cbn [fst].
      * split.
        -- intros E. injection E as <-. right; right; right. exists f, c.
           repeat split; [ exact Ef | now apply Hinstance ].
        -- intros [ (_ & H & _) | [ (o' & H & _) | [ (f' & a & H & Hf) | (f' & c0 & H & _ & _ & ->) ] ] ];
             [ now contradiction H | discriminate H
             | injection H as <-; congruence | reflexivity ].
      * split; [ discriminate | ].
        intros [ (_ & H & _) | [ (o' & H & _) | [ (f' & a & H & Hf) | (f' & c0 & H & Hf & Hi & _) ] ] ];
          [ now contradiction H | discriminate H
          | injection H as <-; congruence | ].
        injection H as <-. rewrite Ef in Hf. injection Hf as <-.
        apply Hinstance in Hi. congruence.
    + split.
      * intros E. injection E as <-. right; right; left. now exists f, array.
      * intros [ (_ & H & _) | [ (o' & H & _) | [ (f' & a & H & Hf) | (f' & c & H & Hf & _) ] ] ];
          [ now contradiction H | discriminate H
          | injection H as <-; congruence
          | injection H as <-; congruence ].
Qed.

(** After [configure({})] the client's [baseUrl] is [undefined], not the
    empty string: the literal [{ defaults: config }] has no [baseUrl]. *)
Lemma configure_with_object_unsets_baseUrl :
  HttpClient.baseUrl (snd (HttpClient.configure (ArgObject RequestInit.empty) HttpClient.initial))
  = None
  /\ HttpClient.baseUrl (snd (HttpClient.configure (ArgObject RequestInit.empty)
                               HttpClient.initial))
     <> Some "".
Proof. split; [ reflexivity | discriminate ]. Qed.

(** C9, amended.  Called with a default-options object whose headers are
    not a [Headers] instance, [configure] leaves the client with [baseUrl]
    unset ([undefined]), the supplied object as its defaults, an empty
    interceptor list and the configured flag set; and an unset base URL
    resolves every request target as the empty string does. *)
Theorem configure_with_object (o : RequestInit.t) (this : HttpClient.t) :
  isHeaders (RequestInit.headers o) = false ->
  HttpClient.configure (ArgObject o) this
  = (Normal tt,
     HttpClient.Build (HttpClient.activeRequestCount this) (HttpClient.isRequesting this)
       true None (Some o) [])
  /\ forall url, getRequestUrl None url = getRequestUrl (Some "") url.
Proof.
  intros Hplain. split; [ | reflexivity ].
  unfold HttpClient.configure, HttpClient.normalizeConfig, bind. simpl.
  rewrite Hplain. reflexivity.
Qed.

Lemma configure_with_object_witness :
  HttpClient.configure
    (ArgObject (RequestInit.withHeaders (PlainObject [("X-Test", HString "1")])))
    HttpClient.initial
  = (Normal tt,
     HttpClient.Build 0 false true None
       (Some (RequestInit.withHeaders (PlainObject [("X-Test", HString "1")]))) []).
Proof.
  apply (configure_with_object
           (RequestInit.withHeaders (PlainObject [("X-Test", HString "1")]))
           HttpClient.initial).
  reflexivity.
Defined.

(** C10.  When [configure] throws on an argument that is not a function
    -- one that is neither an object nor a function, or an object whose
    default headers are a [Headers] instance -- the client is left exactly
    as it was: [baseUrl], [defaults], [interceptors], [isConfigured] and
    the counters keep their values. *)
Theorem configure_failure_keeps_state
    (config : ConfigArg) (this this' : HttpClient.t) (e : Value) :
  typeof config <> "function" ->
  HttpClient.configure config this = (Throw e, this') ->
  this' = this
  /\ ((typeof config <> "object" /\ e = VError "Error" "invalid config")
      \/ (exists o, config = ArgObject o
                    /\ isHeaders (RequestInit.headers o) = true
                    /\ e = VError "Error" "Default headers must be a plain object.")).
Proof.
  intros Hfun E.
  unfold HttpClient.configure, HttpClient.normalizeConfig, bind in E.
  destruct config as [ | | b | n | str | o | f ]; simpl in E, Hfun;
    try (injection E as <- <-; split; [ reflexivity | left; split; [ discriminate | reflexivity ] ]).
  - discriminate E.
  - destruct (isHeaders (RequestInit.headers o)) eqn:Hh; simpl in E; [ | discriminate E ].
    injection E as <- <-. split; [ reflexivity | right ]. now exists o.
  - congruence.
Qed.

Lemma configure_failure_keeps_state_witness :
  let this := clientWith (Some "/api/") (Some RequestInit.empty) [noHandlers] in
  snd (HttpClient.configure (ArgNumber 1) this) = this
  /\ snd (HttpClient.configure
            (ArgObject (RequestInit.withHeaders (HeadersInstance [("x-test", "1")]))) this)
     = this.
Proof.
  intros this. split.
  - apply (configure_failure_keeps_state (ArgNumber 1) this
             (snd (HttpClient.configure (ArgNumber 1) this))
             (VError "Error" "invalid config")).
    + discriminate.
    + reflexivity.
  - apply (configure_failure_keeps_state
             (ArgObject (RequestInit.withHeaders (HeadersInstance [("x-test", "1")]))) this
             (snd (HttpClient.configure
                     (ArgObject (RequestInit.withHeaders (HeadersInstance [("x-test", "1")])))
                     this))
             (VError "Error" "Default headers must be a plain object.")).
    + discriminate.
    + reflexivity.
Defined.

(* ===================================================================== *)
(** ** The standard configuration *)
(* ===================================================================== *)

(** X5.  [useStandardConfiguration] leaves ['same-origin'] as the
    credentials of the defaults, whatever they were, keeps every other
    default, and appends the interceptor of [rejectErrorResponses]. *)
Theorem useStandardConfiguration_credentials (this : HttpClientConfiguration.t) :
  let d := HttpClientConfiguration.defaults this in
  HttpClientConfiguration.useStandardConfiguration this
  = HttpClientConfiguration.rejectErrorResponses
      (HttpClientConfiguration.Build
         (HttpClientConfiguration.baseUrl this)
         (RequestInit.Build (RequestInit.method d) (RequestInit.headers d)
            (RequestInit.body d) (RequestInit.mode d) (Some "same-origin")
            (RequestInit.cache d) (RequestInit.redirect d) (RequestInit.referrer d)
            (RequestInit.integrity d))
         (HttpClientConfiguration.interceptors this)).
Proof.
  destruct this as [ b [ m h bd md cr ca rd rf ig ] l ].
  unfold HttpClientConfiguration.useStandardConfiguration. simpl.
  destruct m, h, bd, md, ca, rd, rf, ig; reflexivity.
Qed.

(** C4.  [rejectErrorResponses], and with it [useStandardConfiguration],
    appends one interceptor; run on a response, it rejects with that very
    response when its [ok] flag is false and fulfils with it unchanged when
    the flag is true. *)
Theorem rejectErrorResponses_rejects_failed_responses
    (config : HttpClientConfiguration.t) (r : Response.t)
    (request : Request.t) (rt : Runtime) :
  exists interceptor,
    HttpClientConfiguration.interceptors (HttpClientConfiguration.rejectErrorResponses config)
    = HttpClientConfiguration.interceptors config ++ [interceptor]
    /\ HttpClientConfiguration.interceptors
         (HttpClientConfiguration.useStandardConfiguration config)
       = HttpClientConfiguration.interceptors config ++ [interceptor]
    /\ fst (processResponse (Fulfilled (VResponse r)) [interceptor] request rt)
       = Normal (if Response.ok r then Fulfilled (VResponse r)
                 else Rejected (VResponse r)).
Proof.
  exists (Interceptor.Build None None (Some rejectOnError) None).
  repeat split. simpl. now destruct (Response.ok r).
Qed.

(* ===================================================================== *)
(** ** The interceptor chain *)
(* ===================================================================== *)

Section ChainFacts.

Variables (successName errorName : HandlerName) (interceptorArgs : list Value).

Let step := fun index interceptor =>
  chainThen index interceptor successName errorName interceptorArgs.
Let run := fun index interceptors =>
  reduce index interceptors successName errorName interceptorArgs.

Lemma extended_nil rt : extended rt [] = rt.
Proof. destruct rt; unfold extended; simpl. now rewrite app_nil_r. Qed.

Lemma extended_app rt e1 e2 : extended (extended rt e1) e2 = extended rt (e1 ++ e2).
Proof. unfold extended; simpl. now rewrite app_assoc. Qed.

Lemma newEvents_extended rt events : newEvents rt (extended rt events) = events.
Proof.
  unfold newEvents, extended; simpl.
  rewrite skipn_app, skipn_all, Nat.sub_diag. reflexivity.
Qed.

(** One interceptor: the handler that fits the state of the chain is
    called once if the interceptor has it, and nothing else happens. *)
Lemma chainThen_runs index interceptor chain rt :
  exists p events,
    step index interceptor chain rt = (Normal p, extended rt events)
    /\ match chain with
       | Fulfilled value =>
           match getHandler interceptor successName with
           | Some h => p = h value interceptorArgs
                       /\ events = [EvHandler index successName value]
           | None => p = Fulfilled value /\ events = []
           end
       | Rejected reason =>
           match getHandler interceptor errorName with
           | Some h => p = h reason interceptorArgs
                       /\ events = [EvHandler index errorName reason]
           | None => p = Rejected reason /\ events = []
           end
       | Pending => p = Pending /\ events = []
       end.
Proof.
  unfold step, chainThen.
  destruct chain as [ value | reason | ].
  - destruct (getHandler interceptor successName) as [ h | ].
    + now exists (h value interceptorArgs), [EvHandler index successName value].
    + exists (Fulfilled value), []. now rewrite extended_nil.
  - destruct (getHandler interceptor errorName) as [ h | ].
    + now exists (h reason interceptorArgs), [EvHandler index errorName reason].
    + exists (Rejected reason), []. now rewrite extended_nil.
  - exists Pending, []. now rewrite extended_nil.
Qed.

Lemma chainThen_events index interceptor chain rt p events :
  step index interceptor chain rt = (Normal p, extended rt events) ->
  events = [] \/ exists name value,
                   events = [EvHandler index name value]
                   /\ (name = successName \/ name = errorName).
Proof.
  intros E.
  destruct (chainThen_runs index interceptor chain rt) as (p' & ev' & E' & H).
  rewrite E' in E. injection E as -> Hev.
  assert (ev' = events) as ->.
  { now apply app_inv_head in Hev. }
  destruct chain as [ value | reason | ].
  - destruct (getHandler interceptor successName); destruct H as [_ ->];
      [ right; eauto | now left ].
  - destruct (getHandler interceptor errorName); destruct H as [_ ->];
      [ right; eauto | now left ].
  - destruct H as [_ ->]. now left.
Qed.

Lemma PhaseEvent_weaken lo n lo' n' e :
  lo' <= lo -> lo + n <= lo' + n' ->
  PhaseEvent lo n successName errorName e -> PhaseEvent lo' n' successName errorName e.
Proof.
  intros H1 H2 (i & name & v & -> & Hi & Hn). exists i, name, v.
  repeat split; try assumption; lia.
Qed.

(** The whole chain: it never throws, leaves the client alone, and adds
    handler calls in increasing order of the interceptors' numbers. *)
Lemma reduce_runs interceptors : forall index chain rt,
  exists p events,
    run index interceptors chain rt = (Normal p, extended rt events)
    /\ Forall (PhaseEvent index (List.length interceptors) successName errorName) events
    /\ StronglySorted lt (map eventIndex events).
Proof.
  induction interceptors as [ | interceptor rest IH ]; intros index chain rt.
  - exists chain, []. simpl. unfold ret. rewrite extended_nil.
    repeat split; constructor.
  - destruct (chainThen_runs index interceptor chain rt) as (p1 & ev1 & E1 & _).
    destruct (IH (S index) p1 (extended rt ev1)) as (p2 & ev2 & E2 & F2 & S2).
    exists p2, (ev1 ++ ev2).
    assert (F2' : Forall (PhaseEvent index (S (List.length rest)) successName errorName) ev2).
    { eapply Forall_impl; [ | exact F2 ]. intros e. apply PhaseEvent_weaken; lia. }
    split; [ | split ].
    + unfold run in *. simpl. unfold bind. fold (step index interceptor chain rt).
      rewrite E1, E2, extended_app. reflexivity.
    + simpl. apply Forall_app. split; [ | exact F2' ].
      destruct (chainThen_events _ _ _ _ _ _ E1) as [ -> | (name & v & -> & Hn) ].
      * constructor.
      * constructor; [ | constructor ]. exists index, name, v.
        repeat split; try assumption; lia.
    + destruct (chainThen_events _ _ _ _ _ _ E1) as [ -> | (name & v & -> & Hn) ].
      * exact S2.
      * simpl. constructor; [ exact S2 | ].
        apply Forall_map. eapply Forall_impl; [ | exact F2 ].
        intros e (i & name' & v' & -> & Hi & _). simpl. lia.
Qed.

Lemma reduce_app l1 : forall l2 index chain rt,
  run index (l1 ++ l2) chain rt
  = bind (run index l1 chain) (fun p => run (index + List.length l1) l2 p) rt.
Proof.
  induction l1 as [ | interceptor rest IH ]; intros l2 index chain rt.
  - simpl. unfold bind, ret. now rewrite Nat.add_0_r.
  - unfold run in *. simpl. unfold bind.
    destruct (chainThen index interceptor successName errorName interceptorArgs chain rt)
      as [ [ p | e ] rt1 ]; [ | reflexivity ].
    rewrite IH. unfold bind. now rewrite Nat.add_succ_r.
Qed.

Lemma reduce_InRegistrationOrder interceptors input rt :
  InRegistrationOrder interceptors successName errorName
    (fun index => returnedPromise (fst (run 0 (firstn index interceptors) input rt)))
    (newEvents rt (snd (run 0 interceptors input rt))).
Proof.
  destruct (reduce_runs interceptors 0 input rt) as (p & events & E & F & Hsorted).
  rewrite E. simpl snd. rewrite newEvents_extended.
  split; [ exact F | split; [ exact Hsorted | ] ].
  intros index interceptor Hnth.
  assert (Hsplit : interceptors
                   = firstn index interceptors ++ interceptor :: skipn (S index) interceptors).
  { rewrite <- (firstn_skipn index interceptors) at 1. f_equal.
    clear - Hnth. revert index Hnth.
    induction interceptors as [ | x l IH ]; intros [ | index ] H; simpl in *;
      try discriminate.
    - now injection H as ->.
    - now apply IH. }
  assert (Hlen : List.length (firstn index interceptors) = index).
  { apply firstn_length_le. apply Nat.lt_le_incl. apply nth_error_Some. congruence. }
  set (pre := firstn index interceptors) in *.
  set (post := skipn (S index) interceptors) in *.
  destruct (reduce_runs pre 0 input rt) as (p0 & ev0 & E0 & _ & _).
  destruct (chainThen_runs index interceptor p0 (extended rt ev0)) as (p1 & ev1 & E1 & H1).
  destruct (reduce_runs post (S index) p1 (extended (extended rt ev0) ev1))
    as (p2 & ev2 & E2 & _ & _).
  assert (Hall : events = ev0 ++ ev1 ++ ev2).
  { rewrite Hsplit in E. rewrite reduce_app in E. unfold bind in E.
    rewrite E0 in E. rewrite Hlen in E. simpl in E. unfold run in E. simpl in E.
    unfold bind in E. fold (step index interceptor p0 (extended rt ev0)) in E.
    rewrite E1 in E. fold (run (S index) post p1 (extended (extended rt ev0) ev1)) in E.
    rewrite E2 in E. rewrite !extended_app in E.
    injection E as _ Hev. apply app_inv_head in Hev. now symmetry. }
  rewrite E0. simpl.
  destruct p0 as [ value | reason | ]; [ | | exact I ].
  - intros Hh. destruct (getHandler interceptor successName) as [ h | ]; [ | congruence ].
    destruct H1 as [_ ->]. rewrite Hall. apply in_or_app. right. now left.
  - intros Hh. destruct (getHandler interceptor errorName) as [ h | ]; [ | congruence ].
    destruct H1 as [_ ->]. rewrite Hall. apply in_or_app. right. now left.
Qed.

Lemma firstn_S_nth_error (A : Type) (l : list A) : forall index x,
  nth_error l index = Some x -> firstn (S index) l = firstn index l ++ [x].
Proof.
  induction l as [ | y l IH ]; intros [ | index ] x H; simpl in *; try discriminate.
  - now injection H as ->.
  - f_equal. now apply IH.
Qed.

Lemma reduce_TakeTurns interceptors input rt :
  TakeTurns interceptors
    (fun interceptor => getHandler interceptor successName)
    (fun interceptor => getHandler interceptor errorName)
    successName errorName interceptorArgs input
    (fun index => returnedPromise (fst (run 0 (firstn index interceptors) input rt)))
    (fun index => newEvents rt (snd (run 0 (firstn index interceptors) input rt))).
Proof.
  split; [ reflexivity | split ].
  - simpl. rewrite <- (extended_nil rt) at 2. apply newEvents_extended.
  - intros index interceptor Hnth.
    assert (Hlen : List.length (firstn index interceptors) = index).
    { apply firstn_length_le. apply Nat.lt_le_incl. apply nth_error_Some. congruence. }
    rewrite (firstn_S_nth_error _ _ _ _ Hnth), reduce_app. unfold bind.
    destruct (reduce_runs (firstn index interceptors) 0 input rt) as (p0 & ev0 & E0 & _ & _).
    rewrite E0, Hlen. simpl fst. simpl snd. simpl returnedPromise.
    destruct (chainThen_runs index interceptor p0 (extended rt ev0)) as (p1 & ev1 & E1 & H1).
    unfold run. simpl. unfold bind. fold (step index interceptor p0 (extended rt ev0)).
    rewrite E1. unfold ret. simpl. rewrite extended_app, !newEvents_extended.
    destruct p0 as [ value | reason | ].
    + destruct (getHandler interceptor successName); destruct H1 as [-> ->];
        [ | rewrite app_nil_r ]; now split.
    + destruct (getHandler interceptor errorName); destruct H1 as [-> ->];
        [ | rewrite app_nil_r ]; now split.
    + destruct H1 as [-> ->]. rewrite app_nil_r. now split.
Qed.

Lemma reduce_whole interceptors input rt :
  run 0 interceptors input rt
  = (Normal (returnedPromise (fst (run 0 (firstn (List.length interceptors) interceptors)
                                     input rt))),
     extended rt (newEvents rt (snd (run 0 (firstn (List.length interceptors) interceptors)
                                       input rt)))).
Proof.
  rewrite firstn_all.
  destruct (reduce_runs interceptors 0 input rt) as (p & events & E & _ & _).
  rewrite E. simpl. now rewrite newEvents_extended.
Qed.

End ChainFacts.

Section AbsentHandlers.

Variables (successName errorName : HandlerName) (interceptorArgs : list Value).

Lemma reduce_absent_success pre interceptor input rt rt' value :
  getHandler interceptor successName = None ->
  reduce 0 pre successName errorName interceptorArgs input rt
  = (Normal (Fulfilled value), rt') ->
  reduce 0 (pre ++ [interceptor]) successName errorName interceptorArgs input rt
  = (Normal (Fulfilled value), rt').
Proof.
  intros Hnone Hpre. rewrite reduce_app. unfold bind. rewrite Hpre.
  simpl. unfold bind, chainThen. now rewrite Hnone.
Qed.

Lemma reduce_absent_error pre interceptor input rt rt' reason :
  getHandler interceptor errorName = None ->
  reduce 0 pre successName errorName interceptorArgs input rt
  = (Normal (Rejected reason), rt') ->
  reduce 0 (pre ++ [interceptor]) successName errorName interceptorArgs input rt
  = (Normal (Rejected reason), rt').
Proof.
  intros Hnone Hpre. rewrite reduce_app. unfold bind. rewrite Hpre.
  simpl. unfold bind, chainThen. now rewrite Hnone.
Qed.

End AbsentHandlers.

(** C5.  At any place of the chain, an interceptor without the success
    handler of the phase ([request], [response]) hands on the value it
    receives, and one without the failure handler ([requestError],
    [responseError]) hands on the rejection reason it receives: the promise
    after it is the promise before it, and the run-time state is the same. *)
Theorem absent_handler_is_transparent
    (pre : list Interceptor.t) (interceptor : Interceptor.t)
    (input : Promise Value) (request : Request.t) (rt rt' : Runtime) (x : Value) :
  (Interceptor.request interceptor = None ->
   processRequest input pre rt = (Normal (Fulfilled x), rt') ->
   processRequest input (pre ++ [interceptor]) rt = (Normal (Fulfilled x), rt'))
  /\ (Interceptor.requestError interceptor = None ->
      processRequest input pre rt = (Normal (Rejected x), rt') ->
      processRequest input (pre ++ [interceptor]) rt = (Normal (Rejected x), rt'))
  /\ (Interceptor.response interceptor = None ->
      processResponse input pre request rt = (Normal (Fulfilled x), rt') ->
      processResponse input (pre ++ [interceptor]) request rt = (Normal (Fulfilled x), rt'))
  /\ (Interceptor.responseError interceptor = None ->
      processResponse input pre request rt = (Normal (Rejected x), rt') ->
      processResponse input (pre ++ [interceptor]) request rt = (Normal (Rejected x), rt')).
Proof.
  unfold processRequest, processResponse, applyInterceptors.
  repeat split; intros Hnone Hpre.
  - now apply reduce_absent_success.
  - now apply reduce_absent_error.
  - now apply reduce_absent_success.
  - now apply reduce_absent_error.
Qed.

(** C6.  In the request phase and in the response phase alike, the
    interceptors take their turns in the order of the list.  With
    [after index] the promise and [calls index] the handler calls of the
    phase once the interceptors before position [index] are done:

    - nothing is called before the first interceptor, which meets the input;
    - the interceptor at [index] calls its own handler of the phase -- in the
      request phase [request] on a value and [requestError] on a rejection
      reason, with no further argument; in the response phase [response]
      and [responseError], with the request as second argument -- after all
      the calls of the interceptors before it, and what that handler returns
      is what the next interceptor meets; without the handler it calls
      nothing and hands on what it met;
    - the phase as a whole returns the promise left after the last
      interceptor, adds those calls to the trace and nothing else, and
      leaves the client alone;
    - so only handlers of the phase are called, and the positions of the
      interceptors called strictly increase along the calls. *)
Theorem interceptors_run_in_registration_order
    (interceptors : list Interceptor.t) (input : Promise Value)
    (request : Request.t) (rt : Runtime) :
  let n := List.length interceptors in
  let requestRun := fun index => processRequest input (firstn index interceptors) rt in
  let responseRun :=
    fun index => processResponse input (firstn index interceptors) request rt in
  let after := fun (run : nat -> Completion (Promise Value) * Runtime) index =>
    returnedPromise (fst (run index)) in
  let calls := fun (run : nat -> Completion (Promise Value) * Runtime) index =>
    newEvents rt (snd (run index)) in
  (TakeTurns interceptors Interceptor.request Interceptor.requestError
     request_ requestError_ [] input (after requestRun) (calls requestRun)
   /\ processRequest input interceptors rt
      = (Normal (after requestRun n), extended rt (calls requestRun n)))
  /\ (TakeTurns interceptors Interceptor.response Interceptor.responseError
        response_ responseError_ [VRequest request] input
        (after responseRun) (calls responseRun)
      /\ processResponse input interceptors request rt
         = (Normal (after responseRun n), extended rt (calls responseRun n)))
  /\ InRegistrationOrder interceptors request_ requestError_
       (after requestRun) (newEvents rt (snd (processRequest input interceptors rt)))
  /\ InRegistrationOrder interceptors response_ responseError_
       (after responseRun)
       (newEvents rt (snd (processResponse input interceptors request rt))).
Proof.
  intros n requestRun responseRun after calls.
  split; [ split | split; [ split | split ] ].
  - exact (reduce_TakeTurns request_ requestError_ [] interceptors input rt).
  - exact (reduce_whole request_ requestError_ [] interceptors input rt).
  - exact (reduce_TakeTurns response_ responseError_ [VRequest request] interceptors input rt).
  - exact (reduce_whole response_ responseError_ [VRequest request] interceptors input rt).
  - apply reduce_InRegistrationOrder.
  - apply reduce_InRegistrationOrder.
Qed.

Lemma absent_handler_is_transparent_witness :
  processRequest (Fulfilled (VString "a")) ([] ++ [noHandlers]) (emptyTrace HttpClient.initial)
  = (Normal (Fulfilled (VString "a")), emptyTrace HttpClient.initial)
  /\ processRequest (Rejected (VString "e")) ([] ++ [noHandlers]) (emptyTrace HttpClient.initial)
     = (Normal (Rejected (VString "e")), emptyTrace HttpClient.initial).
Proof.
  split.
  - apply (proj1 (absent_handler_is_transparent [] noHandlers (Fulfilled (VString "a"))
                    (Request.Build "" "GET" [] None RequestInit.empty)
                    (emptyTrace HttpClient.initial) (emptyTrace HttpClient.initial)
                    (VString "a"))); reflexivity.
  - apply (proj1 (proj2 (absent_handler_is_transparent [] noHandlers (Rejected (VString "e"))
                    (Request.Build "" "GET" [] None RequestInit.empty)
                    (emptyTrace HttpClient.initial) (emptyTrace HttpClient.initial)
                    (VString "e")))); reflexivity.
Defined.

(* ===================================================================== *)
(** ** The request pipeline *)
(* ===================================================================== *)

Section PipelineFacts.

Variable transport : Request.t -> Promise Value.


Lemma applyInterceptors_runs input interceptors s e args rt :
  exists p events,
    applyInterceptors input interceptors s e args rt = (Normal p, extended rt events)
    /\ Forall (PhaseEvent 0 (List.length interceptors) s e) events.
Proof.
  destruct (reduce_runs s e args interceptors 0 input rt) as (p & events & E & F & _).
  now exists p, events.
Qed.



End PipelineFacts.

Lemma filter_isTransport_none lo n s e (events : list Event) :
  Forall (PhaseEvent lo n s e) events -> filter isTransport events = [].
Proof.
  induction 1 as [ | ev events (i & name & v & -> & _) _ IH ]; simpl;
    [ reflexivity | exact IH ].
Qed.

Lemma processResponse_no_transport response interceptors request rt :
  filter isTransport (newEvents rt (snd (processResponse response interceptors request rt)))
  = [].
Proof.
  unfold processResponse.
  destruct (applyInterceptors_runs response interceptors response_ responseError_
              [VRequest request] rt) as (p & events & E & F).
  rewrite E. simpl snd. rewrite newEvents_extended.
  now apply filter_isTransport_none in F.
Qed.

Lemma newEvents_refl rt : newEvents rt rt = [].
Proof. unfold newEvents. apply skipn_all. Qed.

(** X1.  What the handler after the request phase does with each kind of
    result.  A request is sent, once, and its response or failure goes
    through the response phase.  A response goes through the response
    phase without any call of the transport, provided the request had been
    built; the promise of the build is what [request.then] is called on.
    Anything else is refused with an error that quotes the value. *)
Theorem dispatch_by_kind_of_result
    (transport : Request.t -> Promise Value)
    (request : Promise Request.t) (result : Value) (rt : Runtime) :
  let interceptors := HttpClient.interceptors (client rt) in
  let run := dispatch transport request result rt in
  match result with
  | VRequest r =>
      run = processResponse (transport r) interceptors r (extended rt [EvTransport r])
      /\ filter isTransport (newEvents rt (snd run)) = [EvTransport r]
  | VResponse _ =>
      filter isTransport (newEvents rt (snd run)) = []
      /\ match request with
         | Fulfilled built => run = processResponse (Fulfilled result) interceptors built rt
         | Rejected reason => run = (Normal (Rejected reason), rt)
         | Pending => run = (Normal Pending, rt)
         end
  | _ =>
      run = (Normal (Rejected (VError "Error"
               ("An invalid result was returned by the interceptor chain. Expected a Request or Response instance, but got ["
                ++ toString result ++ "]")%string)), rt)
  end.
Proof.
  intros interceptors run. subst run.
  destruct result as [ | | b | n | str | name message | r | r ]; try reflexivity.
  - assert (E : dispatch transport request (VRequest r) rt
                = processResponse (transport r) interceptors r (extended rt [EvTransport r]))
      by reflexivity.
    split; [ exact E | ]. rewrite E.
    destruct (applyInterceptors_runs (transport r) interceptors response_ responseError_
                [VRequest r] (extended rt [EvTransport r])) as (p & events & E' & F).
    unfold processResponse. rewrite E'. simpl snd.
    rewrite extended_app, newEvents_extended. simpl.
    now rewrite (filter_isTransport_none _ _ _ _ _ F).
  - destruct request as [ built | reason | ].
    + assert (E : dispatch transport (Fulfilled built) (VResponse r) rt
                  = processResponse (Fulfilled (VResponse r)) interceptors built rt)
        by reflexivity.
      split; [ | exact E ]. rewrite E. apply processResponse_no_transport.
    + split; [ | reflexivity ].
      change (snd (dispatch transport (Rejected reason) (VResponse r) rt)) with rt.
      now rewrite newEvents_refl.
    + split; [ | reflexivity ].
      change (snd (dispatch transport Pending (VResponse r) rt)) with rt.
      now rewrite newEvents_refl.
Qed.

(** C3, at the input where the code departs from it.  The request cannot
    be built ([GET] with a body); the interceptor's [requestError] handler
    recovers with a response, so the request phase ends with a response
    instance.  The transport is not called, but neither is the response
    phase entered: [request.then(...)] is called on the promise of the
    failed build, and [fetch] rejects with the build's error. *)
Theorem recovered_response_is_not_processed (transport : Request.t -> Promise Value) :
  let this := clientWith (Some "/api/") None [recoverWithResponse] in
  let init := RequestInit.withBody (BodyString "data") in
  let request := promiseOf (buildRequest this (InputUrl "users") (Some init)) in
  request = Rejected getWithBodyError
  /\ fst (processRequest (promiseMap VRequest request) [recoverWithResponse] (emptyTrace this))
     = Normal (Fulfilled (VResponse cachedResponse))
  /\ fetch transport (InputUrl "users") (Some init) (emptyTrace this)
     = (Normal (Rejected getWithBodyError),
        {| client := this;
           trace := [EvTrackRequestStart; EvBuildRequest;
                     EvHandler 0 requestError_ getWithBodyError;
                     EvTrackRequestEnd] |}).
Proof. repeat split. Qed.

(** The same recovery after a request that was built: the response is
    handed to the response phase, and the transport is not called. *)
Example recovered_response_after_build (transport : Request.t -> Promise Value) :
  let this := clientWith (Some "/api/") None [failingRequest; recoverWithResponse] in
  let built := Request.Build "/api/users" "GET" [] None
                 (RequestInit.withHeaders (PlainObject [])) in
  fetch transport (InputUrl "users") None (emptyTrace this)
  = (Normal (Fulfilled (VResponse cachedResponse)),
     {| client := this;
        trace := [EvTrackRequestStart; EvBuildRequest;
                  EvHandler 0 request_ (VRequest built);
                  EvHandler 1 requestError_ (VString "offline");
                  EvHandler 1 response_ (VResponse cachedResponse);
                  EvTrackRequestEnd] |}).
Proof. reflexivity. Qed.

(* ===================================================================== *)
(** ** The active-request counter *)
(* ===================================================================== *)

Lemma runTicks_count (schedule : list Tick) : forall this,
  HttpClient.activeRequestCount (runTicks schedule this)
  = (HttpClient.activeRequestCount this + fold_right Z.add 0 (map delta schedule))%Z.
Proof.
  unfold runTicks.
  induction schedule as [ | t rest IH ]; intros this; cbn [fold_left map fold_right].
  - lia.
  - rewrite IH.
    destruct t;
      unfold tick, HttpClient.trackRequestStart, HttpClient.trackRequestEnd, modify, delta;
      cbn [snd HttpClient.activeRequestCount HttpClient.setCount]; lia.
Qed.





Lemma fetch_unfold transport input init rt :
  fetch transport input init rt
  = bind (pipeline transport input init) trackRequestEndWith (started rt).
Proof. reflexivity. Qed.



(* ===================================================================== *)
(** ** Building the request: what ends up on it *)
(* ===================================================================== *)

Section HeadersSetFacts.

Import Headers.

Lemma filter_without_same h name :
  filter (named name) (filter (fun e => negb (named name e)) h) = [].
Proof.
  induction h as [ | e h IH ]; simpl; [ reflexivity | ].
  destruct (named name e) eqn:Hn; simpl; [ exact IH | ].
  rewrite Hn. exact IH.
Qed.

Lemma filter_replace_same h name value :
  has h name = true ->
  map snd (filter (named name) (replace name value h)) = [value].
Proof.
  unfold has. induction h as [ | e h IH ]; simpl; [ discriminate | ].
  destruct (named name e) eqn:Hn; simpl.
  - intros _. unfold named in Hn |- *. simpl. rewrite Hn. simpl.
    fold (named name). now rewrite filter_without_same.
  - rewrite Hn. exact IH.
Qed.

(** After [set], [get] returns the value set, whatever was there. *)
Lemma get_set_same h name value : get (set h name value) name = Some value.
Proof.
  destruct (has h name) eqn:Hh.
  - unfold set, get. rewrite Hh, filter_replace_same by exact Hh. reflexivity.
  - now apply get_set_absent.
Qed.

Lemma has_get h name : has h name = true <-> get h name <> None.
Proof.
  rewrite has_filter. unfold get.
  destruct (filter (named name) h); simpl; split; congruence.
Qed.

Lemma has_set_other h name name' value :
  toLowerCase name <> toLowerCase name' ->
  has (set h name value) name' = has h name'.
Proof.
  intros Hne.
  destruct (has h name') eqn:Hh.
  - now apply has_set_mono.
  - destruct (has (set h name value) name') eqn:E; [ | reflexivity ].
    apply has_filter in E. rewrite filter_set_other in E by exact Hne.
    apply has_filter in E. congruence.
Qed.

End HeadersSetFacts.

(** Where every default is on the request already, nothing changes. *)
Lemma setDefaultHeaders_all_present defaultHeaders : forall headers,
  (forall e, In e defaultHeaders -> Headers.has headers (fst e) = true) ->
  setDefaultHeaders headers defaultHeaders = headers.
Proof.
  unfold setDefaultHeaders.
  induction defaultHeaders as [ | e rest IH ]; intros headers Hall; simpl;
    [ reflexivity | ].
  rewrite (Hall e) by now left. simpl. apply IH.
  intros e' He'. apply Hall. now right.
Qed.

(** X7.  Filling in the defaults a second time changes nothing. *)
Theorem setDefaultHeaders_idempotent
    (headers : Headers.t) (defaultHeaders : list (string * HeaderValue)) :
  setDefaultHeaders (setDefaultHeaders headers defaultHeaders) defaultHeaders
  = setDefaultHeaders headers defaultHeaders.
Proof.
  apply setDefaultHeaders_all_present.
  intros [name value] Hin. simpl. now apply setDefaultHeaders_adds with (value := value).
Qed.

(** The first default of a name the request lacks is, afterwards, the one
    header of that name. *)
Lemma setDefaultHeaders_first before name value after : forall headers,
  Headers.has headers name = false ->
  (forall e, In e before -> toLowerCase (fst e) <> toLowerCase name) ->
  map snd (filter (Headers.named name)
             (setDefaultHeaders headers (before ++ (name, value) :: after)))
  = [stringOfHeaderValue value].
Proof.
  induction before as [ | [n v] before IH ]; intros headers Hh Hbefore.
  - change (setDefaultHeaders headers ([] ++ (name, value) :: after))
      with (setDefaultHeaders
              (if negb (Headers.has headers name)
               then Headers.set headers name (stringOfHeaderValue value) else headers) after).
    rewrite Hh. simpl negb. cbv iota.
    rewrite setDefaultHeaders_keeps by apply has_set_same.
    unfold Headers.set. rewrite Hh, filter_append_same.
    assert (filter (Headers.named name) headers = []) as ->.
    { destruct (filter (Headers.named name) headers) eqn:E; [ reflexivity | ].
      assert (Headers.has headers name = true) by (apply has_filter; congruence).
      congruence. }
    reflexivity.
  - change (setDefaultHeaders headers (((n, v) :: before) ++ (name, value) :: after))
      with (setDefaultHeaders
              (if negb (Headers.has headers n)
               then Headers.set headers n (stringOfHeaderValue v) else headers)
              (before ++ (name, value) :: after)).
    apply IH.
    + assert (Hne : toLowerCase n <> toLowerCase name)
        by (apply (Hbefore (n, v)); now left).
      destruct (Headers.has headers n); simpl; [ exact Hh | ].
      now rewrite has_set_other.
    + intros e He. apply Hbefore. now right.
Qed.

(** The init object [buildRequest] hands to the request's constructor. *)
Lemma requestInit_merged (d init : RequestInit.t) :
  RequestInit.assignOpt
    (RequestInit.assign
       (RequestInit.assign (RequestInit.assign RequestInit.empty d)
          (RequestInit.withHeaders (PlainObject [])))
       init)
    (if truthyBody (RequestInit.body init)
     then option_map RequestInit.withBody (RequestInit.body init) else None)
  = RequestInit.Build
      (RequestInit.orElse (RequestInit.method init) (RequestInit.method d))
      (Some (match RequestInit.headers init with
             | Some h => h
             | None => PlainObject []
             end))
      (RequestInit.orElse (RequestInit.body init) (RequestInit.body d))
      (RequestInit.orElse (RequestInit.mode init) (RequestInit.mode d))
      (RequestInit.orElse (RequestInit.credentials init) (RequestInit.credentials d))
      (RequestInit.orElse (RequestInit.cache init) (RequestInit.cache d))
      (RequestInit.orElse (RequestInit.redirect init) (RequestInit.redirect d))
      (RequestInit.orElse (RequestInit.referrer init) (RequestInit.referrer d))
      (RequestInit.orElse (RequestInit.integrity init) (RequestInit.integrity d)).
Proof.
  assert (Hnone : forall (A : Type) (x : option A), RequestInit.orElse x None = x)
    by (intros A [ x | ]; reflexivity).
  destruct d as [ dm dh db dmd dcr dca drd drf dig ].
  destruct init as [ m h b md cr ca rd rf ig ].
  destruct b as [ [ str | type | ct ] | ]; destruct h;
    unfold RequestInit.assignOpt, RequestInit.assign, RequestInit.withHeaders,
      RequestInit.withBody, RequestInit.empty, option_map;
    cbn; try destruct (truthyString str); cbn; rewrite ?Hnone; reflexivity.
Qed.

Section BuiltRequestFacts.

Variables (this : HttpClient.t) (url : string) (init : RequestInit.t)
          (request : Request.t).

Hypothesis Hbuild : buildRequest this (InputUrl url) (Some init) = Normal request.

(** X8.  A body that is a blob with a type decides the content type of the
    request: whatever the call and the defaults say, [Content-Type] is the
    type of the blob. *)
Theorem buildRequest_blob_content_type (type : string) :
  blobType (RequestInit.body init) = Some type ->
  Headers.get (Request.headers request) "Content-Type" = Some type.
Proof.
  intros Hblob.
  destruct (buildRequest_url_headers this url init request Hbuild) as (built & _ & ->).
  cbv zeta. rewrite Hblob. apply get_set_same.
Qed.

(** X9.  Where the call names no content type (none, or an empty one) and
    the body is not a blob with a type, the content type of the default
    headers is the one of the request, also over the one the platform
    derives from the body. *)
Theorem buildRequest_default_content_type (contentType : string) :
  truthyOption (Headers.get (newHeaders (RequestInit.headers init)) "Content-Type") = false ->
  Headers.get
    (newHeaders (Some (PlainObject (parseHeaderValues (RequestInit.headers (defaultsOf this))))))
    "content-type" = Some contentType ->
  blobType (RequestInit.body init) = None ->
  Headers.get (Request.headers request) "Content-Type" = Some contentType.
Proof.
  intros Hcall Hdefault Hblob.
  destruct (buildRequest_url_headers this url init request Hbuild) as (built & _ & ->).
  cbv zeta. fold (defaultsOf this). rewrite Hblob, Hcall, Hdefault. simpl negb.
  assert (Hhas : Headers.has
                   (newHeaders (Some (PlainObject
                      (parseHeaderValues (RequestInit.headers (defaultsOf this))))))
                   "content-type" = true).
  { apply has_get. congruence. }
  rewrite Hhas. simpl andb. cbv iota.
  apply eq_trans with (Headers.get (Headers.set built "Content-Type" contentType) "Content-Type").
  - apply get_filter. apply setDefaultHeaders_keeps. apply has_set_same.
  - apply get_set_same.
Qed.

(** X10.  A default header of a name the call does not give, other than the
    content type, is on the request with its value, and with what the
    function returns where the default is a function.  Of several defaults
    whose names differ in letter case only, the first counts. *)
Theorem buildRequest_default_value
    (before after : list (string * HeaderValue)) (name : string) (value : HeaderValue) :
  RequestInit.headers (defaultsOf this) = Some (PlainObject (before ++ (name, value) :: after)) ->
  (forall e, In e before -> toLowerCase (fst e) <> toLowerCase name) ->
  Headers.has (newHeaders (RequestInit.headers init)) name = false ->
  toLowerCase name <> "content-type" ->
  Headers.get (Request.headers request) name
  = Some (match value with
          | HString s => s
          | HFunction _ result => result
          end).
Proof.
  intros Hdefaults Hbefore Hcall Hname.
  destruct (buildRequest_url_headers this url init request Hbuild) as (built & Hbuilt & ->).
  cbv zeta. fold (defaultsOf this). rewrite Hdefaults.
  assert (Hct : toLowerCase "Content-Type" <> toLowerCase name).
  { intros E. apply Hname. now rewrite <- E. }
  assert (H0 : Headers.has built name = false).
  { destruct Hbuilt as [ -> | (ct & _ & ->) ]; [ exact Hcall | ].
    rewrite has_append, Hcall. cbn [orb]. apply String.eqb_neq. exact Hct. }
  set (resolve := fun e : string * HeaderValue =>
                    (fst e, match snd e with
                            | HFunction _ result => HString result
                            | HString s => HString s
                            end)).
  assert (Hparsed : parseHeaderValues (Some (PlainObject (before ++ (name, value) :: after)))
                    = map resolve before ++ resolve (name, value) :: map resolve after).
  { unfold parseHeaderValues. now rewrite map_app. }
  rewrite Hparsed.
  match goal with
  | |- context [setDefaultHeaders ?b _] => set (backfilled := b)
  end.
  assert (H1 : Headers.has backfilled name = false).
  { subst backfilled. destruct (_ && _); [ | exact H0 ].
    now rewrite has_set_other. }
  assert (H2 : map snd (filter (Headers.named name)
                          (setDefaultHeaders backfilled
                             (map resolve before ++ resolve (name, value) :: map resolve after)))
               = [match value with HString s => s | HFunction _ result => result end]).
  { unfold resolve at 2. simpl fst. simpl snd.
    rewrite setDefaultHeaders_first; [ now destruct value | exact H1 | ].
    intros e He. apply in_map_iff in He as (e' & <- & He'). simpl. now apply Hbefore. }
  unfold Headers.get.
  destruct (blobType (RequestInit.body init)).
  - rewrite filter_set_other by exact Hct. now rewrite H2.
  - now rewrite H2.
Qed.

(** X11.  The options of the call win over the defaults, option by option;
    the defaults fill what the call leaves out.  The headers handed to the
    request's constructor are those of the call alone, and the URL is the
    target resolved against the base URL. *)
Theorem buildRequest_options_precedence :
  let d := defaultsOf this in
  let merged := Request.init request in
  Request.url request = getRequestUrl (HttpClient.baseUrl this) url
  /\ Request.method request
     = methodName (RequestInit.orElse (RequestInit.method init) (RequestInit.method d))
  /\ Request.body request = RequestInit.orElse (RequestInit.body init) (RequestInit.body d)
  /\ RequestInit.headers merged
     = Some (match RequestInit.headers init with
             | Some h => h
             | None => PlainObject []
             end)
  /\ RequestInit.method merged = RequestInit.orElse (RequestInit.method init) (RequestInit.method d)
  /\ RequestInit.body merged = RequestInit.orElse (RequestInit.body init) (RequestInit.body d)
  /\ RequestInit.mode merged = RequestInit.orElse (RequestInit.mode init) (RequestInit.mode d)
  /\ RequestInit.credentials merged
     = RequestInit.orElse (RequestInit.credentials init) (RequestInit.credentials d)
  /\ RequestInit.cache merged = RequestInit.orElse (RequestInit.cache init) (RequestInit.cache d)
  /\ RequestInit.redirect merged
     = RequestInit.orElse (RequestInit.redirect init) (RequestInit.redirect d)
  /\ RequestInit.referrer merged
     = RequestInit.orElse (RequestInit.referrer init) (RequestInit.referrer d)
  /\ RequestInit.integrity merged
     = RequestInit.orElse (RequestInit.integrity init) (RequestInit.integrity d).
Proof.
  intros d merged. subst d merged.
  revert Hbuild. unfold buildRequest. fold (defaultsOf this).
  rewrite requestInit_merged. unfold newRequest.
  cbn [RequestInit.body RequestInit.method RequestInit.headers].
  destruct (RequestInit.orElse (RequestInit.body init) (RequestInit.body (defaultsOf this)))
    as [ body | ].
  - destruct (_ || _); [ discriminate | ].
    intros E. injection E as <-. cbn. repeat split; reflexivity.
  - intros E. injection E as <-. cbn. repeat split; reflexivity.
Qed.

End BuiltRequestFacts.

Lemma buildRequest_blob_content_type_witness :
  exists request,
    buildRequest (clientWith (Some "/api/") (Some jsonDefaults) []) (InputUrl "upload")
      (Some postCsv) = Normal request
    /\ Headers.get (Request.headers request) "Content-Type" = Some "text/csv".
Proof.
  eexists. split; [ reflexivity | ].
  apply (buildRequest_blob_content_type
           (clientWith (Some "/api/") (Some jsonDefaults) []) "upload" postCsv _
           eq_refl "text/csv" eq_refl).
Defined.

Lemma buildRequest_default_content_type_witness :
  exists request,
    buildRequest (clientWith (Some "/api/") (Some jsonDefaults) []) (InputUrl "users")
      (Some postText) = Normal request
    /\ Headers.get (Request.headers request) "Content-Type" = Some "application/json".
Proof.
  eexists. split; [ reflexivity | ].
  apply (buildRequest_default_content_type
           (clientWith (Some "/api/") (Some jsonDefaults) []) "users" postText _
           eq_refl "application/json" eq_refl eq_refl eq_refl).
Defined.

Lemma buildRequest_default_value_witness :
  exists request,
    buildRequest (clientWith (Some "/api/") (Some tokenDefaults) []) (InputUrl "users")
      (Some postText) = Normal request
    /\ Headers.get (Request.headers request) "Authorization" = Some "Bearer abc".
Proof.
  eexists. split; [ reflexivity | ].
  apply (buildRequest_default_value
           (clientWith (Some "/api/") (Some tokenDefaults) []) "users" postText _
           eq_refl [("Accept", HString "application/json")] [] "Authorization"
           (HFunction "() => token()" "Bearer abc")).
  - reflexivity.
  - intros e [ <- | [] ]. discriminate.
  - reflexivity.
  - discriminate.
Defined.

Lemma buildRequest_options_precedence_witness :
  exists request,
    buildRequest (clientWith (Some "/api/") (Some jsonDefaults) []) (InputUrl "users")
      (Some postText) = Normal request
    /\ Request.url request = "/api/users"
    /\ Request.method request = "POST".
Proof.
  eexists. split; [ reflexivity | ].
  pose proof (buildRequest_options_precedence
                (clientWith (Some "/api/") (Some jsonDefaults) []) "users" postText _
                eq_refl) as H.
  cbv zeta in H. destruct H as (Hurl & Hmethod & _).
  split; [ exact Hurl | exact Hmethod ].
Defined.

(** X12.  A body on a GET or HEAD request makes the build fail.  The body
    and the method are those of the merged options: the call's, or failing
    that the defaults'; so a default body makes every call without a method
    of its own fail, and so does a body given to a call whose method the
    defaults leave at GET. *)
Theorem buildRequest_refuses_body_on_GET_or_HEAD
    (this : HttpClient.t) (url : string) (init : option RequestInit.t) :
  let d := defaultsOf this in
  let i := match init with Some i => i | None => RequestInit.empty end in
  let body := RequestInit.orElse (RequestInit.body i) (RequestInit.body d) in
  let method := methodName (RequestInit.orElse (RequestInit.method i) (RequestInit.method d)) in
  body <> None ->
  method = "GET" \/ method = "HEAD" ->
  exists e, buildRequest this (InputUrl url) init = Throw e.
Proof.
  intros d i body method Hbody Hmethod. subst d body method.
  unfold buildRequest. fold (defaultsOf this). fold i.
  rewrite requestInit_merged. unfold newRequest.
  cbn [RequestInit.body RequestInit.method RequestInit.headers].
  destruct (RequestInit.orElse (RequestInit.body i) (RequestInit.body (defaultsOf this)))
    as [ body | ]; [ | now contradiction Hbody ].
  set (m := methodName _) in *.
  destruct Hmethod as [ -> | -> ]; simpl; eauto.
Qed.

Lemma buildRequest_refuses_body_on_GET_or_HEAD_witness :
  (exists e,
     buildRequest
       (clientWith None (Some (RequestInit.withBody (BodyString "a=1"))) [])
       (InputUrl "users") None
     = Throw e)
  /\ (exists e,
        buildRequest (clientWith None None [])
          (InputUrl "users")
          (Some (RequestInit.Build (Some "head") None (Some (BodyString "a=1"))
                  None None None None None None))
        = Throw e).
Proof.
  split.
  - apply (buildRequest_refuses_body_on_GET_or_HEAD
             (clientWith None (Some (RequestInit.withBody (BodyString "a=1"))) [])
             "users" None).
    + discriminate.
    + now left.
  - apply (buildRequest_refuses_body_on_GET_or_HEAD
             (clientWith None None []) "users"
             (Some (RequestInit.Build (Some "head") None (Some (BodyString "a=1"))
                      None None None None None None))).
    + discriminate.
    + now right.
Defined.

(** X13.  A request that is given as a [Request] object is used as it is.
    The options of the call play no part: the build ends as it does without
    them.  And when it returns, the URL, the method and the body of the
    request are as they were, the headers it had keep their values (but for
    an empty content type), and every default header is on it. *)
Theorem buildRequest_of_Request
    (this : HttpClient.t) (r request : Request.t) (init : option RequestInit.t) :
  buildRequest this (InputRequest r) init = Normal request ->
  buildRequest this (InputRequest r) None = buildRequest this (InputRequest r) init
  /\ Request.url request = Request.url r
  /\ Request.method request = Request.method r
  /\ Request.body request = Request.body r
  /\ Request.init request = Request.init r
  /\ (forall name,
        Headers.has (Request.headers r) name = true ->
        (toLowerCase name = "content-type" ->
         truthyOption (Headers.get (Request.headers r) "Content-Type") = true) ->
        Headers.get (Request.headers request) name = Headers.get (Request.headers r) name)
  /\ (forall name value,
        In (name, value) (parseHeaderValues (RequestInit.headers (defaultsOf this))) ->
        Headers.has (Request.headers request) name = true).
Proof.
  unfold buildRequest. fold (defaultsOf this). cbn [blobType].
  intros Hbuild. injection Hbuild as <-.
  split; [ reflexivity | ].
  cbn [Request.setHeaders Request.url Request.method Request.body Request.init
       Request.headers].
  repeat split.
  - intros name Hhas Hct. apply get_filter.
    rewrite setDefaultHeaders_keeps.
    + destruct (_ && _) eqn:Hfill; [ | reflexivity ].
      apply filter_set_other. intros E.
      apply andb_true_iff in Hfill as [Hfalsy _].
      rewrite Hct in Hfalsy; [ discriminate | now rewrite <- E ].
    + destruct (_ && _); [ now apply has_set_mono | exact Hhas ].
  - intros name value Hin. now apply setDefaultHeaders_adds with (value := value).
Qed.

Section JsonFacts.

Variables (J : Type) (stringify : J -> string) (emptyObject : J).

(** X14.  [json(undefined)] is the blob [json({})] is, and a request whose
    body is a blob made by [json] carries the content type
    [application/json], whatever content type the call or the defaults
    name. *)
Theorem json_body_content_type
    (body : option J) (this : HttpClient.t) (url : string)
    (init : RequestInit.t) (request : Request.t) :
  RequestInit.body init = Some (bodyOfBlob (json J stringify emptyObject body)) ->
  buildRequest this (InputUrl url) (Some init) = Normal request ->
  json J stringify emptyObject None = json J stringify emptyObject (Some emptyObject)
  /\ Request.body request = Some (BodyBlob "application/json")
  /\ Headers.get (Request.headers request) "Content-Type" = Some "application/json".
Proof.
  intros Hbody Hbuild. split; [ reflexivity | split ].
  - revert Hbuild. unfold buildRequest. fold (defaultsOf this).
    rewrite requestInit_merged. unfold newRequest.
    cbn [RequestInit.body RequestInit.method RequestInit.headers].
    rewrite Hbody. cbn [RequestInit.orElse].
    destruct (_ || _); [ discriminate | ].
    intros E. now injection E as <-.
  - destruct (buildRequest_url_headers this url init request Hbuild) as (built & _ & ->).
    cbv zeta. rewrite Hbody. cbn [bodyOfBlob json Blob.type blobType truthyString].
    simpl. apply get_set_same.
Qed.

End JsonFacts.

Lemma json_body_content_type_witness :
  exists request,
    buildRequest (clientWith (Some "/api/") None []) (InputUrl "users")
      (Some (RequestInit.Build (Some "POST")
               (Some (PlainObject [("Content-Type", HString "text/plain")]))
               (Some (bodyOfBlob (json nat (fun _ => "{}") 0 None)))
               None None None None None None))
    = Normal request
    /\ Headers.get (Request.headers request) "Content-Type" = Some "application/json".
Proof.
  eexists. split; [ reflexivity | ].
  apply (json_body_content_type nat (fun _ => "{}") 0 None
           (clientWith (Some "/api/") None []) "users"
           (RequestInit.Build (Some "POST")
              (Some (PlainObject [("Content-Type", HString "text/plain")]))
              (Some (bodyOfBlob (json nat (fun _ => "{}") 0 None)))
              None None None None None None) _ eq_refl eq_refl).
Defined.

(* ===================================================================== *)
(** ** A whole [fetch] *)
(* ===================================================================== *)

Section FetchFacts.

Variable transport : Request.t -> Promise Value.

(** What a chain makes of its input depends on the interceptors and the
    input alone. *)
Lemma reduce_result s e args interceptors : forall index index' chain rt rt',
  fst (reduce index interceptors s e args chain rt)
  = fst (reduce index' interceptors s e args chain rt').
Proof.
  induction interceptors as [ | interceptor rest IH ]; intros index index' chain rt rt'.
  - reflexivity.
  - simpl. unfold bind.
    destruct (chainThen_runs s e args index interceptor chain rt) as (p & ev & E & H).
    destruct (chainThen_runs s e args index' interceptor chain rt') as (p' & ev' & E' & H').
    rewrite E, E'.
    assert (p = p') as <-.
    { destruct chain as [ value | reason | ].
      - destruct (getHandler interceptor s); destruct H as [-> _], H' as [-> _]; reflexivity.
      - destruct (getHandler interceptor e); destruct H as [-> _], H' as [-> _]; reflexivity.
      - destruct H as [-> _], H' as [-> _]. reflexivity. }
    apply IH.
Qed.

Lemma processRequest_result input interceptors rt rt' :
  fst (processRequest input interceptors rt) = fst (processRequest input interceptors rt').
Proof. apply reduce_result. Qed.

(** The shape of the pipeline: the build, the request phase, at most one
    call of the transport, the response phase. *)
Lemma pipeline_shape input init rt :
  let n := List.length (HttpClient.interceptors (client rt)) in
  exists p requestEvents sent responseEvents,
    pipeline transport input init rt
    = (Normal p,
       extended rt (EvBuildRequest :: requestEvents ++ sent ++ responseEvents))
    /\ Forall (PhaseEvent 0 n request_ requestError_) requestEvents
    /\ Forall (PhaseEvent 0 n response_ responseError_) responseEvents
    /\ match requestPhase (client rt) input init with
       | Fulfilled (VRequest r) =>
           sent = [EvTransport r]
           /\ (Normal p, extended rt (EvBuildRequest :: requestEvents ++ sent ++ responseEvents))
              = processResponse (transport r) (HttpClient.interceptors (client rt)) r
                  (extended rt (EvBuildRequest :: requestEvents ++ sent))
       | Fulfilled (VResponse _) => sent = []
       | Fulfilled other =>
           sent = [] /\ responseEvents = []
           /\ p = Rejected (VError "Error"
                    ("An invalid result was returned by the interceptor chain. Expected a Request or Response instance, but got ["
                     ++ toString other ++ "]")%string)
       | Rejected reason => sent = [] /\ responseEvents = [] /\ p = Rejected reason
       | Pending => sent = [] /\ responseEvents = [] /\ p = Pending
       end.
Proof.
  intros n. subst n. unfold requestPhase.
  set (interceptors := HttpClient.interceptors (client rt)).
  set (request := promiseOf (buildRequest (client rt) input init)).
  rewrite (processRequest_result _ _ (emptyTrace (client rt)) (extended rt [EvBuildRequest])).
  unfold pipeline, bind, read, log, modify. simpl fst. simpl snd.
  fold (extended rt [EvBuildRequest]). fold request. fold interceptors.
  destruct (applyInterceptors_runs (promiseMap VRequest request) interceptors
              request_ requestError_ [] (extended rt [EvBuildRequest]))
    as (p1 & ev1 & E1 & F1).
  unfold processRequest. rewrite E1. simpl returnedPromise. rewrite extended_app.
  destruct p1 as [ result | reason | ].
  - unfold dispatch, bind, read. simpl fst. simpl snd.
    change (HttpClient.interceptors (client (extended rt ([EvBuildRequest] ++ ev1))))
      with interceptors.
    destruct result as [ | | b | k | str | name message | r | r ];
      try (eexists; exists ev1, [], []; unfold ret; rewrite !app_nil_r;
           repeat split; try assumption; constructor).
    + (* a request: it is sent *)
      change (isResponse (VRequest r)) with false. cbv iota beta.
      unfold log, modify, bind. cbv beta iota.
      change {| client := client (extended rt ([EvBuildRequest] ++ ev1));
                trace := trace (extended rt ([EvBuildRequest] ++ ev1)) ++ [EvTransport r] |}
        with (extended (extended rt ([EvBuildRequest] ++ ev1)) [EvTransport r]).
      rewrite extended_app.
      destruct (applyInterceptors_runs (transport r) interceptors response_ responseError_
                  [VRequest r] (extended rt (EvBuildRequest :: ev1 ++ [EvTransport r])))
        as (p2 & ev2 & E2 & F2).
      rewrite extended_app in E2.
      change ((EvBuildRequest :: ev1 ++ [EvTransport r]) ++ ev2)
        with (EvBuildRequest :: (ev1 ++ [EvTransport r]) ++ ev2) in E2.
      rewrite <- app_assoc in E2.
      exists p2, ev1, [EvTransport r], ev2.
      change (extended rt (([EvBuildRequest] ++ ev1) ++ [EvTransport r]))
        with (extended rt (EvBuildRequest :: ev1 ++ [EvTransport r])).
      unfold processResponse. rewrite E2.
      repeat split; assumption.
    + (* a response: the transport is not called *)
      change (isResponse (VResponse r)) with true. cbv iota beta.
      destruct request as [ built | reason | ].
      * destruct (applyInterceptors_runs (Fulfilled (VResponse r)) interceptors
                    response_ responseError_ [VRequest built]
                    (extended rt ([EvBuildRequest] ++ ev1)))
          as (p2 & ev2 & E2 & F2).
        exists p2, ev1, [], ev2.
        unfold processResponse. rewrite E2, extended_app.
        repeat split; assumption.
      * exists (Rejected reason), ev1, [], []. unfold ret. rewrite !app_nil_r.
        repeat split; try assumption; constructor.
      * exists Pending, ev1, [], []. unfold ret. rewrite !app_nil_r.
        repeat split; try assumption; constructor.
  - exists (Rejected reason), ev1, [], []. unfold ret. rewrite !app_nil_r.
    repeat split; try assumption; constructor.
  - exists Pending, ev1, [], []. unfold ret. rewrite !app_nil_r.
    repeat split; try assumption; constructor.
Qed.

End FetchFacts.

Section FetchShape.

Variable transport : Request.t -> Promise Value.

Lemma processResponse_result response interceptors request rt rt' :
  fst (processResponse response interceptors request rt)
  = fst (processResponse response interceptors request rt').
Proof. apply reduce_result. Qed.

Lemma requestPhase_started rt input init :
  requestPhase (client (started rt)) input init = requestPhase (client rt) input init.
Proof.
  unfold requestPhase.
  rewrite (processRequest_result _ _ (emptyTrace (client (started rt)))
             (emptyTrace (client rt))).
  reflexivity.
Qed.

(** A whole [fetch]: the start, the build, the request phase, at most one
    call of the transport, the response phase and, once the promise has
    settled, the end. *)
Lemma fetch_shape input init rt :
  let interceptors := HttpClient.interceptors (client rt) in
  let n := List.length interceptors in
  exists p requestEvents sent responseEvents,
    fst (fetch transport input init rt) = Normal p
    /\ newEvents rt (snd (fetch transport input init rt))
       = EvTrackRequestStart :: EvBuildRequest
         :: requestEvents ++ sent ++ responseEvents
            ++ (if settled p then [EvTrackRequestEnd] else [])
    /\ Forall (PhaseEvent 0 n request_ requestError_) requestEvents
    /\ Forall (PhaseEvent 0 n response_ responseError_) responseEvents
    /\ match requestPhase (client rt) input init with
       | Fulfilled (VRequest r) =>
           sent = [EvTransport r]
           /\ Normal p
              = fst (processResponse (transport r) interceptors r (emptyTrace (client rt)))
       | Fulfilled (VResponse _) => sent = []
       | Fulfilled other =>
           sent = [] /\ responseEvents = []
           /\ p = Rejected (VError "Error"
                    ("An invalid result was returned by the interceptor chain. Expected a Request or Response instance, but got ["
                     ++ toString other ++ "]")%string)
       | Rejected reason => sent = [] /\ responseEvents = [] /\ p = Rejected reason
       | Pending => sent = [] /\ responseEvents = [] /\ p = Pending
       end.
Proof.
  intros interceptors n. subst n interceptors.
  rewrite fetch_unfold. unfold bind.
  destruct (pipeline_shape transport input init (started rt))
    as (p & req & sent & resp & E & Freq & Fresp & Hkind).
  cbv zeta in Freq, Fresp.
  rewrite requestPhase_started in Hkind.
  change (HttpClient.interceptors (client (started rt)))
    with (HttpClient.interceptors (client rt)) in *.
  rewrite E.
  set (events := EvBuildRequest :: req ++ sent ++ resp) in *.
  exists p, req, sent, resp.
  assert (Hrun : trackRequestEndWith p (extended (started rt) events)
                 = (Normal p,
                    if settled p
                    then {| client := snd (HttpClient.trackRequestEnd (client (started rt)));
                            trace := trace (extended (started rt) events)
                                     ++ [EvTrackRequestEnd] |}
                    else extended (started rt) events)).
  { unfold trackRequestEndWith, bind. destruct (settled p); reflexivity. }
  rewrite Hrun. simpl fst. simpl snd.
  split; [ reflexivity | split; [ | split; [ exact Freq | split; [ exact Fresp | ] ] ] ].
  - unfold newEvents. destruct (settled p); unfold extended, started, events; simpl trace.
    + rewrite <- !app_assoc. rewrite skipn_app, skipn_all, Nat.sub_diag. simpl.
      rewrite <- !app_assoc. reflexivity.
    + rewrite <- !app_assoc. rewrite skipn_app, skipn_all, Nat.sub_diag. simpl.
      rewrite !app_nil_r. reflexivity.
  - destruct (requestPhase (client rt) input init) as [ [ | | b | k | str | name message | r | r ] | reason | ];
      try exact Hkind.
    destruct Hkind as [Hsent Hp]. split; [ exact Hsent | ].
    rewrite (processResponse_result _ _ _ (emptyTrace (client rt))
               (extended (started rt) (EvBuildRequest :: req ++ sent))).
    now rewrite <- Hp.
Qed.

Lemma PhaseEvent_filter_none lo n s e (f : Event -> bool) (events : list Event) :
  (forall index name value,
      name = s \/ name = e -> f (EvHandler index name value) = false) ->
  Forall (PhaseEvent lo n s e) events -> filter f events = [].
Proof.
  intros Hf. induction 1 as [ | ev events (i & name & v & -> & _ & Hn) _ IH ]; simpl;
    [ reflexivity | ].
  now rewrite (Hf i name v Hn).
Qed.

Lemma PhaseEvent_none lo s e (events : list Event) :
  Forall (PhaseEvent lo 0 s e) events -> events = [].
Proof.
  destruct 1 as [ | ev events (i & name & v & _ & Hi & _) _ ]; [ reflexivity | lia ].
Qed.


(** X16.  When the request phase ends in a rejection, the promise of the
    [fetch] is rejected with that reason; the transport is not called and
    no [response] or [responseError] handler is. *)
Theorem rejected_request_phase_ends_fetch
    (input : Input) (init : option RequestInit.t) (rt : Runtime) (reason : Value) :
  requestPhase (client rt) input init = Rejected reason ->
  let events := newEvents rt (snd (fetch transport input init rt)) in
  fst (fetch transport input init rt) = Normal (Rejected reason)
  /\ filter isTransport events = []
  /\ filter (isHandlerOf response_) events = []
  /\ filter (isHandlerOf responseError_) events = [].
Proof.
  intros Hphase events. subst events.
  destruct (fetch_shape input init rt)
    as (p & req & sent & resp & Ep & Enew & Freq & _ & Hkind).
  rewrite Hphase in Hkind. destruct Hkind as (-> & -> & ->).
  rewrite Ep, Enew. simpl settled. cbv iota.
  split; [ reflexivity | ].
  assert (Hnone : forall f,
             (forall index name value,
                 name = request_ \/ name = requestError_ ->
                 f (EvHandler index name value) = false) ->
             f EvTrackRequestStart = false -> f EvBuildRequest = false ->
             f EvTrackRequestEnd = false ->
             filter f (EvTrackRequestStart :: EvBuildRequest
                       :: req ++ [] ++ [] ++ [EvTrackRequestEnd]) = []).
  { intros f Hf H1 H2 H3. simpl. rewrite H1, H2, filter_app.
    rewrite (PhaseEvent_filter_none _ _ _ _ f req Hf Freq). simpl. now rewrite H3. }
  repeat split; apply Hnone; try reflexivity; intros i name v [ -> | -> ]; reflexivity.
Qed.

(** X17.  A client without interceptors adds nothing to the transport: the
    promise of the [fetch] is the promise of the transport for the request
    that was built, the transport is called once, with that request; and
    when the request cannot be built the [fetch] is rejected with the
    failure and the transport is not called. *)
Theorem fetch_without_interceptors
    (input : Input) (init : option RequestInit.t) (rt : Runtime) :
  HttpClient.interceptors (client rt) = [] ->
  let events := newEvents rt (snd (fetch transport input init rt)) in
  match buildRequest (client rt) input init with
  | Normal r =>
      fst (fetch transport input init rt) = Normal (transport r)
      /\ events = [EvTrackRequestStart; EvBuildRequest; EvTransport r]
                  ++ (if settled (transport r) then [EvTrackRequestEnd] else [])
  | Throw e =>
      fst (fetch transport input init rt) = Normal (Rejected e)
      /\ events = [EvTrackRequestStart; EvBuildRequest; EvTrackRequestEnd]
  end.
Proof.
  intros Hnone events. subst events.
  destruct (fetch_shape input init rt)
    as (p & req & sent & resp & Ep & Enew & Freq & Fresp & Hkind).
  cbv zeta in Freq, Fresp. rewrite Hnone in Freq, Fresp, Hkind.
  apply PhaseEvent_none in Freq, Fresp. subst req resp.
  unfold requestPhase in Hkind. rewrite Hnone in Hkind.
  rewrite Ep, Enew.
  destruct (buildRequest (client rt) input init) as [ r | e ]; simpl in Hkind.
  - destruct Hkind as [-> Hp]. injection Hp as ->. split; reflexivity.
  - destruct Hkind as (-> & _ & ->). split; reflexivity.
Qed.

End FetchShape.

Lemma rejected_request_phase_ends_fetch_witness :
  exists events,
    fetch (fun _ => Pending) (InputUrl "users") None
      (emptyTrace (clientWith (Some "/api/") None
                     [failingRequest;
                      Interceptor.Build None None None
                        (Some (fun _ _ => Fulfilled (VResponse cachedResponse)))]))
    = (Normal (Rejected (VString "offline")),
       {| client := clientWith (Some "/api/") None
                      [failingRequest;
                       Interceptor.Build None None None
                         (Some (fun _ _ => Fulfilled (VResponse cachedResponse)))];
          trace := events |})
    /\ filter (isHandlerOf responseError_) events = [].
Proof.
  eexists. split; [ reflexivity | ].
  apply (rejected_request_phase_ends_fetch (fun _ => Pending) (InputUrl "users") None
           (emptyTrace (clientWith (Some "/api/") None
                          [failingRequest;
                           Interceptor.Build None None None
                             (Some (fun _ _ => Fulfilled (VResponse cachedResponse)))]))
           (VString "offline") eq_refl).
Defined.

Lemma fetch_without_interceptors_witness :
  fst (fetch (fun _ => Fulfilled (VResponse cachedResponse)) (InputUrl "users") None
         (emptyTrace (clientWith (Some "/api/") None [])))
  = Normal (Fulfilled (VResponse cachedResponse)).
Proof.
  pose proof (fetch_without_interceptors (fun _ => Fulfilled (VResponse cachedResponse))
                (InputUrl "users") None
                (emptyTrace (clientWith (Some "/api/") None [])) eq_refl) as H.
  cbv zeta in H. exact (proj1 H).
Defined.

(* ===================================================================== *)
(** ** Configuring with a callback *)
(* ===================================================================== *)

Lemma runSteps_interceptors steps : forall config,
  HttpClientConfiguration.interceptors (runSteps steps config)
  = HttpClientConfiguration.interceptors config ++ pushed steps.
Proof.
  unfold runSteps, pushed.
  induction steps as [ | step rest IH ]; intros config; simpl.
  - now rewrite app_nil_r.
  - rewrite IH, app_assoc. f_equal. destruct step; simpl; now rewrite ?app_nil_r.
Qed.

Lemma configure_chained steps this :
  let config := runSteps steps (seedOf this) in
  HttpClient.configure (chained steps) this
  = if isHeaders (RequestInit.headers (HttpClientConfiguration.defaults config))
    then (Throw (VError "Error" "Default headers must be a plain object."),
          HttpClient.setInterceptors this (HttpClient.interceptors this ++ pushed steps))
    else (Normal tt,
          HttpClient.Build (HttpClient.activeRequestCount this) (HttpClient.isRequesting this)
            true (HttpClientConfiguration.baseUrl config)
            (Some (HttpClientConfiguration.defaults config))
            (HttpClient.interceptors this ++ pushed steps)).
Proof.
  intros config.
  assert (Hpushed : HttpClientConfiguration.interceptors config
                    = HttpClient.interceptors this ++ pushed steps)
    by apply runSteps_interceptors.
  unfold HttpClient.configure, HttpClient.normalizeConfig, bind, read, modify, chained.
  simpl. fold (seedOf this). fold config. rewrite Hpushed.
  destruct (isHeaders (RequestInit.headers (HttpClientConfiguration.defaults config)));
    reflexivity.
Qed.

Lemma runSteps_keeps steps : forall config,
  (setsBaseUrl steps = false ->
   HttpClientConfiguration.baseUrl (runSteps steps config)
   = HttpClientConfiguration.baseUrl config)
  /\ (setsDefaults steps = false ->
      HttpClientConfiguration.defaults (runSteps steps config)
      = HttpClientConfiguration.defaults config).
Proof.
  unfold runSteps, setsBaseUrl, setsDefaults.
  induction steps as [ | step rest IH ]; intros config; simpl.
  - now split.
  - destruct (IH (runStep config step)) as [IHb IHd].
    split; intros H; apply orb_false_iff in H as [Hstep Hrest].
    + rewrite IHb by exact Hrest. destruct step; try discriminate; reflexivity.
    + rewrite IHd by exact Hrest. destruct step; try discriminate; reflexivity.
Qed.

(** X18.  Configuring with a callback that chains the configuration's
    methods builds on what the client has: its base URL and a copy of its
    defaults unless the callback sets others, and its interceptors followed
    by the ones the callback pushes, in order.  No interceptor is dropped
    this way. *)
Theorem configure_chained_extends (steps : list ConfigStep) (this : HttpClient.t) :
  let config := runSteps steps (seedOf this) in
  isHeaders (RequestInit.headers (HttpClientConfiguration.defaults config)) = false ->
  HttpClient.configure (chained steps) this
  = (Normal tt,
     HttpClient.Build (HttpClient.activeRequestCount this) (HttpClient.isRequesting this)
       true (HttpClientConfiguration.baseUrl config)
       (Some (HttpClientConfiguration.defaults config))
       (HttpClient.interceptors this ++ pushed steps))
  /\ (setsBaseUrl steps = false ->
      HttpClientConfiguration.baseUrl config = HttpClient.baseUrl this)
  /\ (setsDefaults steps = false ->
      HttpClientConfiguration.defaults config
      = RequestInit.assignOpt RequestInit.empty (HttpClient.defaults this)).
Proof.
  intros config Hplain.
  split; [ | exact (runSteps_keeps steps (seedOf this)) ].
  pose proof (configure_chained steps this) as H. cbv zeta in H. fold config in H.
  now rewrite Hplain in H.
Qed.

Lemma configure_chained_extends_witness :
  HttpClient.configure
    (chained [WithBaseUrl "/v2/"; UseStandardConfiguration])
    (clientWith (Some "/api/") None [noHandlers])
  = (Normal tt,
     HttpClient.Build 0 false true (Some "/v2/")
       (Some (RequestInit.withCredentials "same-origin"))
       ([noHandlers] ++ pushed [WithBaseUrl "/v2/"; UseStandardConfiguration])).
Proof.
  apply (configure_chained_extends [WithBaseUrl "/v2/"; UseStandardConfiguration]
           (clientWith (Some "/api/") None [noHandlers])).
  reflexivity.
Defined.

(** X19.  When [configure] is given such a callback and fails on the
    default headers, the client keeps its base URL, its defaults and its
    flags, but not its interceptors: the ones the callback pushed are on
    the client, since the callback was handed the client's own array. *)
Theorem configure_chained_failure_keeps_pushed
    (steps : list ConfigStep) (this : HttpClient.t) :
  isHeaders (RequestInit.headers
               (HttpClientConfiguration.defaults (runSteps steps (seedOf this)))) = true ->
  HttpClient.configure (chained steps) this
  = (Throw (VError "Error" "Default headers must be a plain object."),
     HttpClient.Build (HttpClient.activeRequestCount this) (HttpClient.isRequesting this)
       (HttpClient.isConfigured this) (HttpClient.baseUrl this) (HttpClient.defaults this)
       (HttpClient.interceptors this ++ pushed steps)).
Proof.
  intros Hinstance.
  pose proof (configure_chained steps this) as H. cbv zeta in H.
  now rewrite Hinstance in H.
Qed.

Lemma configure_chained_failure_keeps_pushed_witness :
  HttpClient.configure
    (chained [WithInterceptor noHandlers;
              WithDefaults (RequestInit.withHeaders (HeadersInstance []))])
    HttpClient.initial
  = (Throw (VError "Error" "Default headers must be a plain object."),
     HttpClient.Build 0 false false (Some "") None [noHandlers]).
Proof.
  apply (configure_chained_failure_keeps_pushed
           [WithInterceptor noHandlers;
            WithDefaults (RequestInit.withHeaders (HeadersInstance []))]
           HttpClient.initial).
  reflexivity.
Defined.

(** X20.  A client without interceptors that is configured with
    [useStandardConfiguration] answers a request as the transport does,
    except that a response whose [ok] flag is false becomes a rejection
    with that response.  A failure of the transport stays the rejection it
    is. *)
Theorem fetch_with_standard_configuration
    (transport : Request.t -> Promise Value) (this0 : HttpClient.t)
    (input : Input) (init : option RequestInit.t) (r : Request.t) (events : list Event) :
  HttpClient.interceptors this0 = [] ->
  let this := snd (HttpClient.configure (chained [UseStandardConfiguration]) this0) in
  buildRequest this input init = Normal r ->
  returnedPromise (fst (fetch transport input init {| client := this; trace := events |}))
  = match transport r with
    | Fulfilled (VResponse response) =>
        if Response.ok response then Fulfilled (VResponse response)
        else Rejected (VResponse response)
    | Fulfilled other => rejectOnError other [VRequest r]
    | Rejected reason => Rejected reason
    | Pending => Pending
    end.
Proof.
  intros Hnone this Hbuild.
  assert (Hthis : HttpClient.interceptors this
                  = [Interceptor.Build None None (Some rejectOnError) None]).
  { subst this. pose proof (configure_chained [UseStandardConfiguration] this0) as H.
    cbv zeta in H. rewrite H, Hnone.
    destruct (isHeaders _); reflexivity. }
  destruct (fetch_shape transport input init {| client := this; trace := events |})
    as (p & req & sent & resp & Ep & _ & _ & _ & Hkind).
  simpl client in Hkind.
  assert (Hphase : requestPhase this input init = Fulfilled (VRequest r)).
  { unfold requestPhase. rewrite Hthis, Hbuild. reflexivity. }
  rewrite Hphase, Hthis in Hkind. destruct Hkind as [_ Hp].
  rewrite Ep. simpl returnedPromise.
  unfold processResponse, applyInterceptors in Hp. cbn [reduce] in Hp.
  unfold bind, chainThen in Hp. cbn [getHandler Interceptor.response Interceptor.responseError] in Hp.
  destruct (transport r) as [ [ | | b | n | str | name message | q | response ] | reason | ];
    cbn in Hp; injection Hp as ->; try reflexivity.
  now destruct (Response.ok response).
Qed.

Lemma fetch_with_standard_configuration_witness :
  returnedPromise
    (fst (fetch (fun _ => Fulfilled (VResponse (Response.Build false 404 "Not Found")))
            (InputUrl "users") None
            {| client := snd (HttpClient.configure (chained [UseStandardConfiguration])
                                HttpClient.initial);
               trace := [] |}))
  = Rejected (VResponse (Response.Build false 404 "Not Found")).
Proof.
  eapply (fetch_with_standard_configuration
            (fun _ => Fulfilled (VResponse (Response.Build false 404 "Not Found")))
            HttpClient.initial (InputUrl "users") None _ [] eq_refl).
  reflexivity.
Defined.

(* ===================================================================== *)
(** ** Calls in flight *)
(* ===================================================================== *)

Lemma filter_out_length (call : nat) (l : list nat) :
  NoDup l -> In call l ->
  S (List.length (filter (fun c => negb (Nat.eqb call c)) l)) = List.length l.
Proof.
  induction 1 as [ | x l Hx Hnd IH ]; intros Hin; [ contradiction | ].
  simpl. destruct (Nat.eqb_spec call x) as [ -> | Hne ]; simpl.
  - f_equal. clear IH Hin Hnd.
    induction l as [ | y l IH ]; simpl; [ reflexivity | ].
    destruct (Nat.eqb_spec x y) as [ -> | _ ]; simpl.
    + exfalso. apply Hx. now left.
    + f_equal. apply IH. intros H. apply Hx. now right.
  - f_equal. apply IH. destruct Hin as [ E | Hin ]; [ congruence | exact Hin ].
Qed.

Lemma inFlightAfter_count (schedule : list Tick) : forall inFlight inFlight',
  NoDup inFlight ->
  inFlightAfter schedule inFlight = Some inFlight' ->
  Z.of_nat (List.length inFlight')
  = (Z.of_nat (List.length inFlight) + fold_right Z.add 0 (map delta schedule))%Z.
Proof.
  induction schedule as [ | [ call | call ] rest IH ]; intros inFlight inFlight' Hnd E;
    cbn [inFlightAfter map fold_right delta] in *.
  - injection E as <-. lia.
  - destruct (existsb (Nat.eqb call) inFlight) eqn:Hin; [ discriminate | ].
    rewrite (IH (call :: inFlight) inFlight'); [ simpl List.length; lia | | exact E ].
    constructor; [ | exact Hnd ].
    intros H. assert (existsb (Nat.eqb call) inFlight = true); [ | congruence ].
    apply existsb_exists. exists call. split; [ exact H | apply Nat.eqb_refl ].
  - destruct (existsb (Nat.eqb call) inFlight) eqn:Hin; [ | discriminate ].
    apply existsb_exists in Hin as (x & Hx & Hcx). apply Nat.eqb_eq in Hcx. subst x.
    rewrite (IH _ inFlight' (NoDup_filter _ Hnd) E).
    pose proof (filter_out_length call inFlight Hnd Hx). lia.
Qed.

Lemma runTicks_isRequesting (schedule : list Tick) : forall this,
  schedule <> [] ->
  HttpClient.isRequesting (runTicks schedule this)
  = negb (HttpClient.activeRequestCount (runTicks schedule this) =? 0)%Z.
Proof.
  unfold runTicks.
  induction schedule as [ | t rest IH ]; intros this Hne; [ contradiction | ].
  destruct rest as [ | t' rest ].
  - destruct t; reflexivity.
  - cbn [fold_left] in *. apply IH. discriminate.
Qed.

(** X21.  Along a schedule in which a call settles only after it was
    started, the counter is raised by the number of calls in flight, and a
    client that was idle before is requesting exactly while some call is in
    flight. *)
Theorem activeRequestCount_counts_calls_in_flight
    (schedule : list Tick) (inFlight : list nat) (this : HttpClient.t) :
  inFlightAfter schedule [] = Some inFlight ->
  HttpClient.activeRequestCount (runTicks schedule this)
  = (HttpClient.activeRequestCount this + Z.of_nat (List.length inFlight))%Z
  /\ (schedule <> [] -> HttpClient.activeRequestCount this = 0%Z ->
      HttpClient.isRequesting (runTicks schedule this)
      = negb (Nat.eqb (List.length inFlight) 0)).
Proof.
  intros Hflight.
  pose proof (inFlightAfter_count schedule [] inFlight (NoDup_nil _) Hflight) as Hcount.
  simpl List.length in Hcount.
  assert (Hn : HttpClient.activeRequestCount (runTicks schedule this)
               = (HttpClient.activeRequestCount this + Z.of_nat (List.length inFlight))%Z).
  { rewrite runTicks_count. lia. }
  split; [ exact Hn | ].
  intros Hne Hidle. rewrite runTicks_isRequesting by exact Hne. rewrite Hn, Hidle.
  destruct (List.length inFlight); reflexivity.
Qed.

Lemma activeRequestCount_counts_calls_in_flight_witness :
  HttpClient.activeRequestCount
    (runTicks [Started 1; Started 2; Settled 1; Started 3] HttpClient.initial) = 2%Z.
Proof.
  apply (activeRequestCount_counts_calls_in_flight
           [Started 1; Started 2; Settled 1; Started 3] [3; 2] HttpClient.initial).
  reflexivity.
Defined.

(* ===================================================================== *)
(** ** Resolving against an absolute base *)
(* ===================================================================== *)

Lemma list_ascii_of_string_append (s1 s2 : string) :
  list_ascii_of_string (s1 ++ s2)%string
  = list_ascii_of_string s1 ++ list_ascii_of_string s2.
Proof.
  induction s1 as [ | c s1 IH ]; simpl; [ reflexivity | now rewrite IH ].
Qed.

Lemma HasMatchAtStart_append r (s1 s2 : string) :
  RegExp.HasMatchAtStart r s1 -> RegExp.HasMatchAtStart r (s1 ++ s2)%string.
Proof.
  intros (w & rest & Hs & Hw).
  exists w, (rest ++ list_ascii_of_string s2). split; [ | exact Hw ].
  now rewrite list_ascii_of_string_append, Hs, app_assoc.
Qed.

(** X22.  With a base URL that is itself absolute, every target resolves
    to an absolute URL, and resolving the result once more changes
    nothing. *)
Theorem getRequestUrl_absolute_base (baseUrl url : string) :
  RegExp.HasMatchAtStart absoluteUrlRegexp baseUrl ->
  RegExp.HasMatchAtStart absoluteUrlRegexp (getRequestUrl (Some baseUrl) url)
  /\ getRequestUrl (Some baseUrl) (getRequestUrl (Some baseUrl) url)
     = getRequestUrl (Some baseUrl) url.
Proof.
  intros Hbase.
  assert (Habs : RegExp.HasMatchAtStart absoluteUrlRegexp (getRequestUrl (Some baseUrl) url)).
  { unfold getRequestUrl. destruct (RegExp.test absoluteUrlRegexp url) eqn:E.
    - now apply test_spec.
    - rewrite orEmpty_Some. now apply HasMatchAtStart_append. }
  split; [ exact Habs | ].
  apply test_spec in Habs. unfold getRequestUrl at 1. now rewrite Habs.
Qed.

Lemma getRequestUrl_absolute_base_witness :
  getRequestUrl (Some "https://example.org/api/")
    (getRequestUrl (Some "https://example.org/api/") "users")
  = getRequestUrl (Some "https://example.org/api/") "users".
Proof.
  apply (getRequestUrl_absolute_base "https://example.org/api/" "users").
  apply test_spec. reflexivity.
Defined.

Lemma buildRequest_of_Request_witness :
  let this := clientWith (Some "/api/") (Some tokenDefaults) [] in
  let r := Request.Build "https://example.org/a" "PUT"
             [("accept", "text/html")] None RequestInit.empty in
  exists request,
    buildRequest this (InputRequest r) (Some postText) = Normal request
    /\ buildRequest this (InputRequest r) None = Normal request
    /\ Request.method request = "PUT"
    /\ Headers.get (Request.headers request) "Accept" = Some "text/html".
Proof.
  intros this r.
  eexists. split; [ reflexivity | ].
  destruct (buildRequest_of_Request this r _ (Some postText) eq_refl)
    as (Hinit & _ & Hmethod & _ & _ & Hkeep & _).
  split; [ exact Hinit | split; [ exact Hmethod | ] ].
  rewrite (Hkeep "Accept"); [ reflexivity | reflexivity | discriminate ].
Defined.
